(** * remote_grep: a shallow embedding of [remote_grep.py]

    The program runs one [grep] command over SSH on every configured host,
    reports the result of every host, optionally downloads the files that
    matched over SFTP, and prints a summary.

    Conventions of the embedding.
    - A Python [str] is a [string]: a sequence of characters with code points
      below 256.
    - An [int] is a [Z]; a [len(...)] is a [nat].
    - The network, the remote hosts and the local file system are an oracle,
      the record [World]; every call the program makes to them is logged as an
      [event].
    - A Python function that prints, calls the outside world or raises is a
      computation in the monad [M]: a log of events and either a value or the
      exception that was raised. *)

From Stdlib Require Import List String Ascii ZArith Bool Arith Lia.
From Stdlib Require Import Permutation DecimalString.
Import ListNotations.

Local Open Scope list_scope.
Local Open Scope string_scope.

Set Implicit Arguments.

(* ------------------------------------------------------------------ *)
(** * Python strings *)

Module PyStr.

Definition code (c : ascii) : nat := nat_of_ascii c.

(** [str.isspace] on one character, for code points below 256. *)
Definition isspace (c : ascii) : bool :=
  let n := code c in
  (((9 <=? n) && (n <=? 13)) || ((28 <=? n) && (n <=? 32))
   || (n =? 133) || (n =? 160))%nat.

(** Line boundaries of [str.splitlines], for code points below 256:
    LF, VT, FF, CR, FS, GS, RS and NEL. *)
Definition isbreak (c : ascii) : bool :=
  let n := code c in
  (((10 <=? n) && (n <=? 13)) || ((28 <=? n) && (n <=? 30)) || (n =? 133))%nat.

Definition CR : ascii := ascii_of_nat 13.
Definition LF : ascii := ascii_of_nat 10.

Fixpoint lstrip_by (p : ascii -> bool) (s : string) : string :=
  match s with
  | EmptyString => EmptyString
  | String c s' => if p c then lstrip_by p s' else s
  end.

Fixpoint rstrip_by (p : ascii -> bool) (s : string) : string :=
  match s with
  | EmptyString => EmptyString
  | String c s' =>
      match rstrip_by p s' with
      | EmptyString => if p c then EmptyString else String c EmptyString
      | r => String c r
      end
  end.

(** [s.strip()] *)
Definition strip (s : string) : string := rstrip_by isspace (lstrip_by isspace s).

(** [s.lstrip("/")] *)
Definition lstrip_slash (s : string) : string :=
  lstrip_by (fun c => Ascii.eqb c "/") s.

(** [s.rstrip("/")] *)
Definition rstrip_slash (s : string) : string :=
  rstrip_by (fun c => Ascii.eqb c "/") s.

(** [s.splitlines()]: [cur] is the line being read, in reverse. A line break
    closes the current line; CR LF is one break; no empty line is produced
    after the last break. *)
Fixpoint rev_string (acc s : string) : string :=
  match s with
  | EmptyString => acc
  | String c s' => rev_string (String c acc) s'
  end.

Fixpoint splitlines_aux (cur : string) (started : bool) (s : string) : list string :=
  match s with
  | EmptyString => if started then [rev_string EmptyString cur] else []
  | String c s' =>
      if isbreak c then
        let rest :=
          match s' with
          | String c' s'' =>
              if Ascii.eqb c CR && Ascii.eqb c' LF
              then splitlines_aux EmptyString false s''
              else splitlines_aux EmptyString false s'
          | EmptyString => []
          end in
        rev_string EmptyString cur :: rest
      else splitlines_aux (String c cur) true s'
  end.

Definition splitlines (s : string) : list string := splitlines_aux EmptyString false s.

(** Truth value of a string: [bool(s)]. *)
Definition truthy (s : string) : bool :=
  match s with EmptyString => false | _ => true end.

Definition startswith_slash (s : string) : bool :=
  match s with String c _ => Ascii.eqb c "/" | EmptyString => false end.

Fixpoint endswith_slash (s : string) : bool :=
  match s with
  | EmptyString => false
  | String c EmptyString => Ascii.eqb c "/"
  | String _ s' => endswith_slash s'
  end.

Fixpoint all_slash (s : string) : bool :=
  match s with
  | EmptyString => true
  | String c s' => Ascii.eqb c "/" && all_slash s'
  end.

(** [str(n)] for an [int]. *)
Definition of_Z (z : Z) : string := NilZero.string_of_int (Z.to_int z).

Definition of_nat (n : nat) : string := of_Z (Z.of_nat n).

(** [c * n] for a one-character string. *)
Fixpoint repeat_char (c : ascii) (n : nat) : string :=
  match n with O => EmptyString | S n' => String c (repeat_char c n') end.

End PyStr.

(** [os.path.join] and [os.path.dirname] of [posixpath]. *)
Module OsPath.

Definition join2 (a b : string) : string :=
  if PyStr.startswith_slash b then b
  else if negb (PyStr.truthy a) || PyStr.endswith_slash a then a ++ b
  else a ++ "/" ++ b.

Definition join (a : string) (ps : list string) : string := fold_left join2 ps a.

(** [head] is [p] up to and including its last slash. *)
Fixpoint head_upto_slash (p : string) : string :=
  match p with
  | EmptyString => EmptyString
  | String c p' =>
      match head_upto_slash p' with
      | EmptyString => if Ascii.eqb c "/" then String c EmptyString else EmptyString
      | h => String c h
      end
  end.

Definition dirname (p : string) : string :=
  let head := head_upto_slash p in
  if PyStr.truthy head && negb (PyStr.all_slash head)
  then PyStr.rstrip_slash head else head.

End OsPath.

(** [shlex.quote] of the Python standard library: the empty string becomes
    two single quotes, a string of safe characters is returned as it is, any
    other string is wrapped in single quotes with every single quote inside
    it replaced by the five characters quote, double quote, quote, double
    quote, quote. *)
Module Shlex.

Definition is_alnum (c : ascii) : bool :=
  let n := PyStr.code c in
  (((48 <=? n) && (n <=? 57)) || ((65 <=? n) && (n <=? 90))
   || ((97 <=? n) && (n <=? 122)))%nat.

(** The characters that the pattern [[^\w@%+=:,./-]] does not match. *)
Definition safe_char (c : ascii) : bool :=
  is_alnum c
  || existsb (Ascii.eqb c) ["_"; "@"; "%"; "+"; "="; ":"; ","; "."; "/"; "-"]%char.

Fixpoint all_safe (s : string) : bool :=
  match s with
  | EmptyString => true
  | String c s' => safe_char c && all_safe s'
  end.

Definition squote : ascii := "'"%char.
Definition dquote : ascii := ascii_of_nat 34.

(** [s.replace(quote, quote dquote quote dquote quote)] *)
Fixpoint escape_squotes (s : string) : string :=
  match s with
  | EmptyString => EmptyString
  | String c s' =>
      if Ascii.eqb c squote
      then String squote (String dquote (String squote (String dquote
             (String squote (escape_squotes s')))))
      else String c (escape_squotes s')
  end.

Definition quote (s : string) : string :=
  match s with
  | EmptyString => String squote (String squote EmptyString)
  | _ =>
      if all_safe s then s
      else String squote (escape_squotes s ++ String squote EmptyString)
  end.

End Shlex.

(* ------------------------------------------------------------------ *)
(** * Data classes *)

Record HostConfig := mkHost {
  hostname : string;
  ip : string;
  username : string;
  password : string;
  port : Z
}.

Definition default_port : Z := 22.

(* ------------------------------------------------------------------ *)
(** * The command sent to the remote host *)

Definition inner_command (search path_glob : string) : string :=
  "LC_ALL=C grep -iln -- " ++ Shlex.quote search ++ " " ++ path_glob.

Definition build_list_command (search path_glob : string) : string :=
  "bash -c " ++ Shlex.quote (inner_command search path_glob).

Arguments build_list_command : simpl never.

(* ------------------------------------------------------------------ *)
(** * Exceptions, events and the monad of effects *)

(** The classes of Python exceptions the program tells apart.
    [AuthenticationException] is a subclass of [SSHException];
    [FileNotFoundError] and [PermissionError] are subclasses of [OSError],
    which is what [socket.error] names. [OtherException] is any other
    subclass of [Exception]. *)
Inductive exn_class :=
| AuthenticationException
| SSHException
| OSError
| FileNotFoundError
| PermissionError
| ValueError
| OtherException.

Record exn := mkExn { exn_kind : exn_class; exn_msg : string }.

(** [isinstance(e, (paramiko.AuthenticationException, paramiko.SSHException,
    socket.error))] *)
Definition is_ssh_or_socket_error (e : exn) : bool :=
  match exn_kind e with
  | AuthenticationException | SSHException
  | OSError | FileNotFoundError | PermissionError => true
  | ValueError | OtherException => false
  end.

Inductive result (A : Type) :=
| Ok (a : A)
| Raise (e : exn).

Arguments Ok {A} a.
Arguments Raise {A} e.

Inductive event :=
| EvConnect (h : HostConfig) (timeout : Z)
| EvExec (h : HostConfig) (cmd : string) (timeout : Z)
| EvCloseClient (h : HostConfig)
| EvOpenSftp (h : HostConfig)
| EvCloseSftp (h : HostConfig)
| EvMakedirs (dir : string)
| EvSftpGet (h : HostConfig) (rpath lpath : string)
| EvPool (max_workers : Z)
| EvPrintHosts (hosts : list HostConfig)
| EvStdout (line : string)
| EvStderr (line : string).

Definition M (A : Type) : Type := (list event * result A)%type.

Definition ret {A} (a : A) : M A := ([], Ok a).

Definition raise {A} (e : exn) : M A := ([], Raise e).

Definition bind {A B} (m : M A) (k : A -> M B) : M B :=
  match m with
  | (l, Raise e) => (l, Raise e)
  | (l, Ok a) => let '(l', r) := k a in ((l ++ l')%list, r)
  end.

Definition emit (ev : event) : M unit := ([ev], Ok tt).

Notation "x <- m ;; k" := (bind m (fun x => k))
  (at level 61, m at next level, right associativity).
Notation "m ;; k" := (bind m (fun _ => k))
  (at level 61, right associativity).

(** An oracle call that either succeeds or raises. *)
Definition call (r : option exn) : M unit :=
  match r with None => ret tt | Some e => raise e end.

Definition lift {A} (r : result A) : M A := ([], r).

(** [try: m  except <classes> as e: return h e] followed by [k] when [m] did
    not raise. An exception outside [classes] propagates. *)
Definition try_except_return {A B} (m : M A) (classes : exn -> bool)
    (h : exn -> M B) (k : A -> M B) : M B :=
  match m with
  | (l, Ok a) => let '(l', r) := k a in ((l ++ l')%list, r)
  | (l, Raise e) =>
      if classes e then let '(l', r) := h e in ((l ++ l')%list, r) else (l, Raise e)
  end.

(** [try: m  except Exception: pass] *)
Definition swallow (m : M unit) : M unit := (fst m, Ok tt).

(** [try: m  finally: fin]. An exception of [fin] would replace the outcome
    of [m]; the [fin] blocks of the program swallow theirs. *)
Definition try_finally {A} (m : M A) (fin : M unit) : M A :=
  let '(l, r) := m in
  match fin with
  | (l', Ok _) => ((l ++ l')%list, r)
  | (l', Raise e) => ((l ++ l')%list, Raise e)
  end.

Definition log_of {A} (m : M A) : list event := fst m.
Definition outcome_of {A} (m : M A) : result A := snd m.

(** [print(s, file=sys.stderr)]. Standard error replaces the characters it
    cannot encode, so the line is taken to be written. *)
Definition eprint (s : string) : M unit := emit (EvStderr s).

Fixpoint for_each {A} (l : list A) (body : A -> M unit) : M unit :=
  match l with
  | [] => ret tt
  | x :: l' => body x ;; for_each l' body
  end.

(* ------------------------------------------------------------------ *)
(** * The outside world *)

(** One entry of the JSON configuration; the port is optional. *)
Record HostEntry := mkEntry {
  e_hostname : string;
  e_ip : string;
  e_username : string;
  e_password : string;
  e_port : option Z
}.

(** What the network, the hosts and the file system answer.
    - [read_config p]: the entries of the JSON file [p], or the exception of
      opening, parsing or reading it.
    - [connect n h t]: the [n]-th connection of the run to host [h] (0 is the
      search session, 1 the retrieval session).
    - [exec_command h cmd t]: output, error output and exit status of [cmd]
      on [h], or the exception raised while starting it or reading them.
    - [as_completed hs]: the order in which the searches of [hs] finish.
    - [stdout_write s]: the exception, if any, with which standard output
      refuses the line [s], for instance because it cannot encode it.
    - [write_hosts hs]: the same for the printed list of hosts. *)
Record World := mkWorld {
  read_config : string -> result (list HostEntry);
  connect : nat -> HostConfig -> Z -> option exn;
  exec_command : HostConfig -> string -> Z -> result (string * string * Z);
  close_client : HostConfig -> option exn;
  open_sftp : HostConfig -> option exn;
  close_sftp : HostConfig -> option exn;
  makedirs : string -> option exn;
  sftp_get : HostConfig -> string -> string -> option exn;
  as_completed : list HostConfig -> list HostConfig;
  stdout_write : string -> option exn;
  write_hosts : list HostConfig -> option exn
}.

(** [print(s)]: a line on standard output. When standard output refuses the
    line, [print] raises and nothing is written. No call of [print] in the
    program is inside a [try], but for [print(hosts)]. *)
Definition print (w : World) (s : string) : M unit :=
  call (stdout_write w s) ;; emit (EvStdout s).

(** [print(hosts)] *)
Definition print_hosts (w : World) (hosts : list HostConfig) : M unit :=
  call (write_hosts w hosts) ;; emit (EvPrintHosts hosts).

(** [concurrent.futures.as_completed] yields every submitted future exactly
    once, in some order. *)
Definition completes_each_once (w : World) : Prop :=
  forall hs, Permutation hs (as_completed w hs).

Record Args := mkArgs {
  config : string;
  search : string;
  path : string;
  download : Z;
  dest : string;
  parallel : Z;
  timeout : Z
}.

(* ------------------------------------------------------------------ *)
(** * SSH logic *)

Definition nl : string := String PyStr.LF EmptyString.

Definition connect_ssh (w : World) (n : nat) (host : HostConfig) (t : Z) : M unit :=
  emit (EvConnect host t) ;; call (connect w n host t).

Definition client_close (w : World) (host : HostConfig) : M unit :=
  emit (EvCloseClient host) ;; call (close_client w host).

Definition sftp_close (w : World) (host : HostConfig) : M unit :=
  emit (EvCloseSftp host) ;; call (close_sftp w host).

(** [[line.strip() for line in out.splitlines() if line.strip()]] *)
Definition parse_paths (out : string) : list string :=
  map PyStr.strip
      (filter (fun line => PyStr.truthy (PyStr.strip line)) (PyStr.splitlines out)).

(** The tuple [(hostname, exit_code, matching_paths, stderr_text)]. *)
Definition HostResult : Type := (string * Z * list string * string)%type.

Definition ssh_failure_code : Z := 255.

Definition run_list_on_host (w : World) (host : HostConfig)
    (search path_glob : string) (t : Z) : M HostResult :=
  try_except_return (connect_ssh w 0 host t) is_ssh_or_socket_error
    (fun e => ret (hostname host, ssh_failure_code, [],
                   "SSH/Network error: " ++ exn_msg e))
    (fun _ =>
       try_finally
         (let cmd := build_list_command search path_glob in
          emit (EvExec host cmd t) ;;
          r <- lift (exec_command w host cmd t) ;;
          let '(out, err, exit_status) := r in
          let paths := parse_paths out in
          ret (hostname host, exit_status, paths, err))
         (swallow (client_close w host))).

Definition local_path_of (dest_root : string) (host : HostConfig) (rpath : string) : string :=
  OsPath.join dest_root [hostname host; PyStr.lstrip_slash rpath].

Arguments local_path_of : simpl never.

(** The body of [for rpath in paths], with the list [downloaded] threaded
    through. *)
Fixpoint download_loop (w : World) (host : HostConfig) (dest_root : string)
    (paths : list string) (downloaded : list (string * string))
    : M (list (string * string)) :=
  match paths with
  | [] => ret downloaded
  | rpath :: rest =>
      let local_path := local_path_of dest_root host rpath in
      let local_dir := OsPath.dirname local_path in
      emit (EvMakedirs local_dir) ;;
      call (makedirs w local_dir) ;;
      emit (EvSftpGet host rpath local_path) ;;
      downloaded' <-
        match sftp_get w host rpath local_path with
        | None => ret (downloaded ++ [(rpath, local_path)])%list
        | Some e =>
            match exn_kind e with
            | FileNotFoundError =>
                eprint ("[WARN] " ++ hostname host ++ ": Remote file not found: " ++ rpath)
            | PermissionError =>
                eprint ("[WARN] " ++ hostname host ++ ": Permission denied: " ++ rpath)
            | _ =>
                eprint ("[WARN] " ++ hostname host ++ ": Failed to download "
                          ++ rpath ++ ": " ++ exn_msg e)
            end ;;
            ret downloaded
        end ;;
      download_loop w host dest_root rest downloaded'
  end.

Definition sftp_download_files (w : World) (host : HostConfig)
    (paths : list string) (dest_root : string) (t : Z)
    : M (list (string * string)) :=
  let downloaded := [] in
  try_except_return
    (connect_ssh w 1 host t ;; emit (EvOpenSftp host) ;; call (open_sftp w host))
    is_ssh_or_socket_error
    (fun e =>
       eprint ("[ERROR] " ++ hostname host ++ ": SFTP connect failed: " ++ exn_msg e) ;;
       ret downloaded)
    (fun _ =>
       try_finally
         (download_loop w host dest_root paths downloaded)
         (swallow (sftp_close w host) ;; swallow (client_close w host))).

(* ------------------------------------------------------------------ *)
(** * CLI and orchestration *)

Definition host_of_entry (entry : HostEntry) : HostConfig :=
  mkHost (e_hostname entry) (e_ip entry) (e_username entry) (e_password entry)
         (match e_port entry with Some p => p | None => default_port end).

Definition load_hosts (w : World) (config_path : string) : M (list HostConfig) :=
  data <- lift (read_config w config_path) ;;
  let hosts := map host_of_entry data in
  match hosts with
  | [] => raise (mkExn ValueError "No hosts found in config.")
  | _ => ret hosts
  end.

Definition print_host_results (w : World) (hostname : string) (exit_code : Z)
    (paths : list string) (err : string) : M unit :=
  let sep := PyStr.repeat_char "=" 80 in
  print w (nl ++ sep ++ nl ++ "Host: " ++ hostname ++ nl ++ "Exit: "
            ++ PyStr.of_Z exit_code ++ nl ++ sep) ;;
  match paths with
  | _ :: _ =>
      print w "Matched files:" ;;
      for_each paths (fun p => print w ("  Host: " ++ hostname ++ " | Path: " ++ p))
  | [] => print w "Matched files: (none)"
  end ;;
  (if PyStr.truthy (PyStr.strip err)
   then print w (nl ++ "[stderr]" ++ nl ++ PyStr.rstrip_by PyStr.isspace err)
   else ret tt) ;;
  if (exit_code =? 0)%Z then
    print w (nl ++ "[INFO] Matches found on " ++ hostname ++ ".")
  else if (exit_code =? 1)%Z then
    print w (nl ++ "[INFO] No matches found on " ++ hostname ++ ".")
  else if (exit_code =? 2)%Z then
    print w (nl ++ "[WARN] Grep reported an error on " ++ hostname ++ " (exit 2).")
  else if (exit_code =? 255)%Z then
    print w (nl ++ "[ERROR] SSH/Network failure contacting " ++ hostname ++ ".")
  else
    print w (nl ++ "[WARN] Non-zero exit code " ++ PyStr.of_Z exit_code
              ++ " on " ++ hostname ++ ".").

(** The four outcomes a host can end in. The program tells them apart by the
    exit code alone, in the last conditional of [print_host_results]:
    0 is a match, 1 is no match, 255 is the SSH or network failure, 2 and
    every other code is an error reported by the remote side. *)
Inductive OutcomeStatus := Matched | NoMatch | RemoteError | ConnectionFailure.

Definition outcome_status (exit_code : Z) : OutcomeStatus :=
  if (exit_code =? 0)%Z then Matched
  else if (exit_code =? 1)%Z then NoMatch
  else if (exit_code =? 2)%Z then RemoteError
  else if (exit_code =? 255)%Z then ConnectionFailure
  else RemoteError.

(** One element of [results]: [(hostname, exit_code, len(paths))]. *)
Definition ResultRow : Type := (string * Z * nat)%type.

(** One element of [downloads_summary]: [(hostname, remote, local)]. *)
Definition DownloadRow : Type := (string * string * string)%type.

Definition row_code (r : ResultRow) : Z := snd (fst r).
Definition row_count (r : ResultRow) : nat := snd r.

(** What [fut.result()] gives for the search of [host]: a tuple, or the
    exception the worker raised. The events of the worker happen in the
    worker's thread and are not part of the log of [main]. *)
Definition future_result (w : World) (args : Args) (host : HostConfig) : result HostResult :=
  outcome_of (run_list_on_host w host (search args) (path args) (timeout args)).

(** The tuple the loop of [main] works with for [host]. *)
Definition host_outcome (w : World) (args : Args) (host : HostConfig) : HostResult :=
  match future_result w args host with
  | Ok t => t
  | Raise e => (hostname host, ssh_failure_code, [], "Unhandled exception: " ++ exn_msg e)
  end.

Definition wants_download (args : Args) (exit_code : Z) (paths : list string) : bool :=
  (download args =? 1)%Z && (exit_code =? 0)%Z
  && match paths with [] => false | _ :: _ => true end.

(** The report of the files downloaded from a host, printed when there are
    some. *)
Definition print_downloaded (w : World) (hostname : string)
    (dl : list (string * string)) : M unit :=
  match dl with
  | _ :: _ =>
      print w (nl ++ "Downloaded files:") ;;
      for_each dl (fun rl =>
        print w ("  Host: " ++ hostname ++ " | Remote: " ++ fst rl
                    ++ " -> Local: " ++ snd rl))
  | [] => ret tt
  end.

(** One iteration of [for fut in as_completed(futures)]. *)
Definition process_host (w : World) (args : Args)
    (st : list ResultRow * list DownloadRow) (host : HostConfig)
    : M (list ResultRow * list DownloadRow) :=
  let '(results, downloads_summary) := st in
  let '(hostname, exit_code, paths, err) := host_outcome w args host in
  print_host_results w hostname exit_code paths err ;;
  let results := (results ++ [(hostname, exit_code, List.length paths)])%list in
  if wants_download args exit_code paths then
    dl <- sftp_download_files w host paths (dest args) (timeout args) ;;
    print_downloaded w hostname dl ;;
    ret (results,
         (downloads_summary ++ map (fun rl => (hostname, fst rl, snd rl)) dl)%list)
  else ret (results, downloads_summary).

Fixpoint main_loop (w : World) (args : Args) (order : list HostConfig)
    (st : list ResultRow * list DownloadRow)
    : M (list ResultRow * list DownloadRow) :=
  match order with
  | [] => ret st
  | host :: rest =>
      st' <- process_host w args st host ;;
      main_loop w args rest st'
  end.

(** [sum(1 for r in results if p r)] *)
Definition sum_ones {A} (p : A -> bool) (l : list A) : nat :=
  list_sum (map (fun _ => 1) (filter p l)).

Definition is_matched_row (r : ResultRow) : bool :=
  (row_code r =? 0)%Z && (0 <? row_count r)%nat.

Definition is_no_match_row (r : ResultRow) : bool :=
  (row_code r =? 1)%Z || (row_count r =? 0)%nat.

Definition is_error_row (r : ResultRow) : bool :=
  negb ((row_code r =? 0)%Z || (row_code r =? 1)%Z).

Definition total_hosts (results : list ResultRow) : nat := List.length results.
Definition matched_hosts (results : list ResultRow) : nat := sum_ones is_matched_row results.
Definition no_match_hosts (results : list ResultRow) : nat := sum_ones is_no_match_row results.
Definition error_hosts (results : list ResultRow) : nat := sum_ones is_error_row results.

Record RunSummary := mkSummary {
  s_total : nat;
  s_matched : nat;
  s_no_match : nat;
  s_errors : nat;
  s_files : nat
}.

Definition summarize (results : list ResultRow) (downloads_summary : list DownloadRow)
    : RunSummary :=
  mkSummary (total_hosts results) (matched_hosts results) (no_match_hosts results)
            (error_hosts results) (List.length downloads_summary).

(** [0 if error_hosts == 0 else 1] *)
Definition exit_signal (results : list ResultRow) : Z :=
  if (error_hosts results =? 0)%nat then 0%Z else 1%Z.

Definition print_summary (w : World) (args : Args) (s : RunSummary) : M unit :=
  print w (nl ++ "Summary:") ;;
  print w ("  Hosts total : " ++ PyStr.of_nat (s_total s)) ;;
  print w ("  Matches on  : " ++ PyStr.of_nat (s_matched s)) ;;
  print w ("  No matches  : " ++ PyStr.of_nat (s_no_match s)) ;;
  print w ("  Errors      : " ++ PyStr.of_nat (s_errors s)) ;;
  if (download args =? 1)%Z
  then print w ("  Files downloaded: " ++ PyStr.of_nat (s_files s))
  else ret tt.

(** The part of [main] that follows the loading of the hosts. *)
Definition run_hosts (w : World) (args : Args) (hosts : list HostConfig)
    : M (list ResultRow * list DownloadRow) :=
  emit (EvPool (Z.max (parallel args) 1)) ;;
  main_loop w args (as_completed w hosts) ([], []).

(** [main], after the parsing of the arguments. *)
Definition main (w : World) (args : Args) : M Z :=
  try_except_return
    (hosts <- load_hosts w (config args) ;;
     print_hosts w hosts ;;
     ret hosts)
    (fun _ => true)
    (fun e => eprint ("[FATAL] Could not load config: " ++ exn_msg e) ;; ret 2%Z)
    (fun hosts =>
       st <- run_hosts w args hosts ;;
       let '(results, downloads_summary) := st in
       print_summary w args (summarize results downloads_summary) ;;
       ret (exit_signal results)).

(* ------------------------------------------------------------------ *)
(** * Example worlds

    Three hosts. [h1] answers the search with two paths; [h2] cannot be
    reached; on [h3] the command exits with 1 and prints a stray line. *)

Module Examples.

Definition h1 : HostConfig := mkHost "h1" "10.0.0.1" "u" "p" 22.
Definition h2 : HostConfig := mkHost "h2" "10.0.0.2" "u" "p" 22.
Definition h3 : HostConfig := mkHost "h3" "10.0.0.3" "u" "p" 2222.

Definition entries : list HostEntry :=
  [mkEntry "h1" "10.0.0.1" "u" "p" None;
   mkEntry "h2" "10.0.0.2" "u" "p" (Some 22%Z);
   mkEntry "h3" "10.0.0.3" "u" "p" (Some 2222%Z)].

Definition is_host (name : string) (h : HostConfig) : bool :=
  String.eqb (hostname h) name.

(** The remote file [/a/c] has vanished by the time it is fetched. *)
Definition w_ok : World := {|
  read_config := fun _ => Ok entries;
  connect := fun _ h _ =>
    if is_host "h2" h then Some (mkExn SSHException "timed out") else None;
  exec_command := fun h _ _ =>
    if is_host "h1" h then Ok ("/a/b" ++ nl ++ " /a/c " ++ nl, "", 0%Z)
    else Ok ("stray" ++ nl, "", 1%Z);
  close_client := fun _ => None;
  open_sftp := fun _ => None;
  close_sftp := fun _ => None;
  makedirs := fun _ => None;
  sftp_get := fun _ r _ =>
    if String.eqb r "/a/c" then Some (mkExn FileNotFoundError "No such file") else None;
  as_completed := fun hs => rev hs;
  stdout_write := fun _ => None;
  write_hosts := fun _ => None
|}.

(** As [w_ok], but the local directory [out/h1/a] cannot be created, and
    the searches finish in the order of submission. *)
Definition w_readonly : World := {|
  read_config := fun _ => Ok entries;
  connect := connect w_ok;
  exec_command := exec_command w_ok;
  close_client := fun _ => None;
  open_sftp := fun _ => None;
  close_sftp := fun _ => None;
  makedirs := fun dir =>
    if String.eqb dir "out/h1/a"
    then Some (mkExn PermissionError "[Errno 13] Permission denied")
    else None;
  sftp_get := fun _ _ _ => None;
  as_completed := fun hs => hs;
  stdout_write := fun _ => None;
  write_hosts := fun _ => None
|}.

(** The session to every host opens, and the remote command exits with
    status 255 without output. *)
Definition w_exit255 : World := {|
  read_config := fun _ => Ok entries;
  connect := fun _ _ _ => None;
  exec_command := fun _ _ _ => Ok ("", "", 255%Z);
  close_client := fun _ => None;
  open_sftp := fun _ => None;
  close_sftp := fun _ => None;
  makedirs := fun _ => None;
  sftp_get := fun _ _ _ => None;
  as_completed := fun hs => hs;
  stdout_write := fun _ => None;
  write_hosts := fun _ => None
|}.

Definition args_search : Args := mkArgs "hosts.json" "a.c" "/var/log/*" 0 "out" 4 120.
Definition args_download : Args := mkArgs "hosts.json" "a.c" "/var/log/*" 1 "out" 4 120.

End Examples.

(* ------------------------------------------------------------------ *)
(** * Notions used in the statements *)

Definition is_stdout (ev : event) : bool :=
  match ev with EvStdout _ => true | _ => false end.

(** A computation that only prints to standard output: it returns, and its
    log holds nothing but [EvStdout] events. *)
Definition only_prints (m : M unit) : Prop :=
  outcome_of m = Ok tt /\ forallb is_stdout (log_of m) = true.

Definition is_failure_status (s : OutcomeStatus) : Prop :=
  s = RemoteError \/ s = ConnectionFailure.

(** The row that one iteration of the loop appends to [results]. *)
Definition row_of (w : World) (args : Args) (host : HostConfig) : ResultRow :=
  let '(name, code, paths, _) := host_outcome w args host in
  (name, code, List.length paths).

(** The rows that one iteration appends to [downloads_summary], or the
    exception that leaves [sftp_download_files]. *)
Definition retrieval_of (w : World) (args : Args) (host : HostConfig)
    : result (list DownloadRow) :=
  let '(name, code, paths, _) := host_outcome w args host in
  if wants_download args code paths then
    match outcome_of (sftp_download_files w host paths (dest args) (timeout args)) with
    | Ok dl => Ok (map (fun rl => (name, fst rl, snd rl)) dl)
    | Raise e => Raise e
    end
  else Ok [].

(** What one iteration of the loop does for [host]: the rows it appends to
    [downloads_summary], or the exception that leaves it, which is that of
    printing the result of the host, of [sftp_download_files], or of
    printing the downloads. *)
Definition iteration_of (w : World) (args : Args) (host : HostConfig)
    : result (list DownloadRow) :=
  let '(name, code, paths, err) := host_outcome w args host in
  match outcome_of (print_host_results w name code paths err) with
  | Raise e => Raise e
  | Ok _ =>
      if wants_download args code paths then
        match outcome_of (sftp_download_files w host paths (dest args) (timeout args)) with
        | Raise e => Raise e
        | Ok dl =>
            match outcome_of (print_downloaded w name dl) with
            | Raise e => Raise e
            | Ok _ => Ok (map (fun rl => (name, fst rl, snd rl)) dl)
            end
        end
      else Ok []
  end.

Fixpoint iterations (w : World) (args : Args) (order : list HostConfig)
    : result (list DownloadRow) :=
  match order with
  | [] => Ok []
  | host :: rest =>
      match iteration_of w args host with
      | Raise e => Raise e
      | Ok d =>
          match iterations w args rest with
          | Ok ds => Ok (d ++ ds)%list
          | Raise e => Raise e
          end
      end
  end.

(** The summary a run prints when its hosts complete in [order]; [None] when
    an exception leaves the loop. *)
Definition run_summary (w : World) (args : Args) (order : list HostConfig)
    : option RunSummary :=
  match outcome_of (main_loop w args order ([], [])) with
  | Ok (results, downloads_summary) => Some (summarize results downloads_summary)
  | Raise _ => None
  end.

(** The outcome the loop of [main] sees for [host]. *)
Definition host_status (w : World) (args : Args) (host : HostConfig) : OutcomeStatus :=
  outcome_status (row_code (row_of w args host)).

(** [sftp_download_files] starts by opening a session of its own: in the
    thread of [main], a connection to [host] is the mark of a retrieval. *)
Definition retrieval_invoked (args : Args) (host : HostConfig) (log : list event) : Prop :=
  In (EvConnect host (timeout args)) log.

Definition get_succeeds (w : World) (host : HostConfig) (dest_root rpath : string) : bool :=
  match sftp_get w host rpath (local_path_of dest_root host rpath) with
  | None => true
  | Some _ => false
  end.

(** The pairs [(remote, local)] of the files whose transfer succeeds. *)
Definition fetched (w : World) (host : HostConfig) (dest_root : string)
    (paths : list string) : list (string * string) :=
  map (fun p => (p, local_path_of dest_root host p))
      (filter (get_succeeds w host dest_root) paths).

Definition is_get (ev : event) : bool :=
  match ev with EvSftpGet _ _ _ => true | _ => false end.

Definition is_stderr (ev : event) : bool :=
  match ev with EvStderr _ => true | _ => false end.

Definition count_events (p : event -> bool) (log : list event) : nat :=
  List.length (filter p log).

Definition dirs_can_be_made (w : World) (host : HostConfig) (dest_root : string)
    (paths : list string) : Prop :=
  forall p, In p paths ->
    makedirs w (OsPath.dirname (local_path_of dest_root host p)) = None.

(** The first line that [print_host_results] prints for a host starts with
    a line feed and the separator. *)
Definition is_host_header (ev : event) : bool :=
  match ev with
  | EvStdout s => String.prefix (nl ++ PyStr.repeat_char "=" 80 ++ nl ++ "Host: ") s
  | _ => false
  end.

(* ------------------------------------------------------------------ *)
(** * How the remote shell reads the command

    The fragment of the shell's word splitting that the command needs.
    A word is its text and a flag that tells whether it holds an unquoted
    glob character, in which case the shell expands it into file names.
    Outside quotes, blanks separate words, the characters [*], [?] and [[]
    are glob characters, and letters, digits and [_@%+=:,./-] stand for
    themselves; any other unquoted character is one the shell gives a
    meaning of its own, and the reading stops with [None]. Between single
    quotes every character stands for itself. Between double quotes every
    character but dollar, backquote and backslash stands for itself. *)

Module Sh.

Inductive mode := Unquoted | InSingle | InDouble.

Definition word : Type := (string * bool)%type.

Definition is_blank (c : ascii) : bool :=
  Ascii.eqb c " " || Ascii.eqb c (ascii_of_nat 9).

Definition is_glob (c : ascii) : bool :=
  Ascii.eqb c "*" || Ascii.eqb c "?" || Ascii.eqb c "[".

Definition is_plain (c : ascii) : bool :=
  Shlex.is_alnum c
  || existsb (Ascii.eqb c) ["_"; "@"; "%"; "+"; "="; ":"; ","; "."; "/"; "-"]%char.

Definition expands_in_dquotes (c : ascii) : bool :=
  Ascii.eqb c "$" || Ascii.eqb c "`" || Ascii.eqb c "\".

Definition push (cur : option word) (c : ascii) (glob : bool) : option word :=
  match cur with
  | None => Some (String c EmptyString, glob)
  | Some (t, g) => Some (t ++ String c EmptyString, g || glob)
  end.

Definition open_word (cur : option word) : option word :=
  match cur with None => Some (EmptyString, false) | Some _ => cur end.

Definition close_word (cur : option word) (ws : option (list word))
    : option (list word) :=
  match cur with None => ws | Some w => option_map (cons w) ws end.

Fixpoint lex (m : mode) (cur : option word) (s : string) : option (list word) :=
  match s with
  | EmptyString =>
      match m with Unquoted => close_word cur (Some []) | _ => None end
  | String c s' =>
      match m with
      | Unquoted =>
          if is_blank c then close_word cur (lex Unquoted None s')
          else if Ascii.eqb c Shlex.squote then lex InSingle (open_word cur) s'
          else if Ascii.eqb c Shlex.dquote then lex InDouble (open_word cur) s'
          else if is_glob c then lex Unquoted (push cur c true) s'
          else if is_plain c then lex Unquoted (push cur c false) s'
          else None
      | InSingle =>
          if Ascii.eqb c Shlex.squote then lex Unquoted cur s'
          else lex InSingle (push cur c false) s'
      | InDouble =>
          if Ascii.eqb c Shlex.dquote then lex Unquoted cur s'
          else if expands_in_dquotes c then None
          else lex InDouble (push cur c false) s'
      end
  end.

Definition words (s : string) : option (list word) := lex Unquoted None s.

(** A word that the shell passes on as it is written. *)
Definition literal (s : string) : word := (s, false).

End Sh.

(** The options of a [grep] command line: the letters of the words that
    start with a dash, up to the end-of-options marker. *)
Module Grep.

Fixpoint option_letters (argv : list string) : list ascii :=
  match argv with
  | [] => []
  | a :: rest =>
      if String.eqb a "--" then []
      else match a with
           | String "-" letters => (list_ascii_of_string letters ++ option_letters rest)%list
           | _ => []
           end
  end.

(** [grep] matches fixed strings only under [-F]. *)
Definition fixed_strings (argv : list string) : bool :=
  existsb (Ascii.eqb "F") (option_letters argv).

(** The pattern is the first word after the options. *)
Fixpoint pattern (argv : list string) : option string :=
  match argv with
  | [] => None
  | a :: rest =>
      if String.eqb a "--" then hd_error rest
      else match a with
           | String "-" _ => pattern rest
           | _ => Some a
           end
  end.

End Grep.

(* ------------------------------------------------------------------ *)
(** * Further notions and example worlds *)

Definition is_close_client (ev : event) : bool :=
  match ev with EvCloseClient _ => true | _ => false end.

Definition is_close_sftp (ev : event) : bool :=
  match ev with EvCloseSftp _ => true | _ => false end.

Definition is_makedirs (ev : event) : bool :=
  match ev with EvMakedirs _ => true | _ => false end.

Module MoreExamples.

(** The session to every host opens, but starting the command raises, and
    so does closing the session. *)
Definition w_exec_fails : World := {|
  read_config := fun _ => Ok Examples.entries;
  connect := fun _ _ _ => None;
  exec_command := fun _ _ _ => Raise (mkExn OtherException "Channel closed.");
  close_client := fun _ => Some (mkExn OSError "Socket is closed");
  open_sftp := fun _ => None;
  close_sftp := fun _ => None;
  makedirs := fun _ => None;
  sftp_get := fun _ _ _ => None;
  as_completed := fun hs => hs;
  stdout_write := fun _ => None;
  write_hosts := fun _ => None
|}.

(** The configuration file holds an empty list. *)
Definition w_empty_config : World := {|
  read_config := fun _ => Ok [];
  connect := fun _ _ _ => None;
  exec_command := fun _ _ _ => Ok ("", "", 1%Z);
  close_client := fun _ => None;
  open_sftp := fun _ => None;
  close_sftp := fun _ => None;
  makedirs := fun _ => None;
  sftp_get := fun _ _ _ => None;
  as_completed := fun hs => hs;
  stdout_write := fun _ => None;
  write_hosts := fun _ => None
|}.

(** As [Examples.w_ok], but the SFTP channel cannot be opened, and closing
    a session raises. *)
Definition w_no_sftp : World := {|
  read_config := read_config Examples.w_ok;
  connect := connect Examples.w_ok;
  exec_command := exec_command Examples.w_ok;
  close_client := fun _ => Some (mkExn OSError "Socket is closed");
  open_sftp := fun _ => Some (mkExn SSHException "Channel closed.");
  close_sftp := fun _ => None;
  makedirs := fun _ => None;
  sftp_get := fun _ _ _ => None;
  as_completed := as_completed Examples.w_ok;
  stdout_write := fun _ => None;
  write_hosts := fun _ => None
|}.

(** Three hosts, all reached: the first matches one file, the others match
    nothing. No local directory can be created. *)
Definition w_nofail : World := {|
  read_config := fun _ => Ok Examples.entries;
  connect := fun _ _ _ => None;
  exec_command := fun h _ _ =>
    if Examples.is_host "h1" h then Ok ("/a/b" ++ nl, "", 0%Z) else Ok ("", "", 1%Z);
  close_client := fun _ => None;
  open_sftp := fun _ => None;
  close_sftp := fun _ => None;
  makedirs := fun _ => Some (mkExn PermissionError "[Errno 13] Permission denied");
  sftp_get := fun _ _ _ => None;
  as_completed := fun hs => hs;
  stdout_write := fun _ => None;
  write_hosts := fun _ => None
|}.

(** Two hosts, both reached, both matching one file, completing in the order
    of submission. No local directory can be created. *)
Definition w_two : World := {|
  read_config := fun _ =>
    Ok [mkEntry "h1" "10.0.0.1" "u" "p" None; mkEntry "h2" "10.0.0.2" "u" "p" None];
  connect := fun _ _ _ => None;
  exec_command := fun _ _ _ => Ok ("/a/b" ++ nl, "", 0%Z);
  close_client := fun _ => None;
  open_sftp := fun _ => None;
  close_sftp := fun _ => None;
  makedirs := fun _ => Some (mkExn PermissionError "[Errno 13] Permission denied");
  sftp_get := fun _ _ _ => None;
  as_completed := fun hs => hs;
  stdout_write := fun _ => None;
  write_hosts := fun _ => None
|}.

(** As [Examples.w_ok], but standard output cannot encode the list of
    hosts. *)
Definition w_hosts_unprintable : World := {|
  read_config := read_config Examples.w_ok;
  connect := connect Examples.w_ok;
  exec_command := exec_command Examples.w_ok;
  close_client := fun _ => None;
  open_sftp := fun _ => None;
  close_sftp := fun _ => None;
  makedirs := fun _ => None;
  sftp_get := sftp_get Examples.w_ok;
  as_completed := as_completed Examples.w_ok;
  stdout_write := fun _ => None;
  write_hosts := fun _ => Some (mkExn ValueError "'ascii' codec can't encode character")
|}.


End MoreExamples.

(** The output of a command that prints one path per line. *)
Fixpoint unlines (paths : list string) : string :=
  match paths with
  | [] => EmptyString
  | p :: rest => p ++ nl ++ unlines rest
  end.

Fixpoint has_no_break (s : string) : bool :=
  match s with
  | EmptyString => true
  | String c s' => negb (PyStr.isbreak c) && has_no_break s'
  end.

(** A path that survives the parsing as it is: not empty, without a line
    break, and with no white space at either end. *)
Definition clean_path (p : string) : Prop :=
  p <> EmptyString /\ has_no_break p = true /\ PyStr.strip p = p.

(** [s] is empty or starts with a character outside [p]. *)
Definition starts_outside (p : ascii -> bool) (s : string) : Prop :=
  match s with
  | EmptyString => True
  | String c _ => p c = false
  end.

(** A destination root that is not empty and does not end with a slash. *)
Definition open_root (dest_root : string) : bool :=
  PyStr.truthy dest_root && negb (PyStr.endswith_slash dest_root).

(** A host name that is not empty and neither starts nor ends with a
    slash. *)
Definition plain_name (name : string) : bool :=
  PyStr.truthy name && negb (PyStr.startswith_slash name)
  && negb (PyStr.endswith_slash name).

Fixpoint slash_free (s : string) : bool :=
  match s with
  | EmptyString => true
  | String c s' => negb (Ascii.eqb c "/") && slash_free s'
  end.

(** Every event of the log of [m] satisfies [P]. *)
Definition log_all {A} (P : event -> bool) (m : M A) : Prop :=
  forallb P (log_of m) = true.

(** The exception, if any, that keeps the retrieval session from opening:
    that of the connection, or else that of the SFTP channel. *)
Definition sftp_session_error (w : World) (host : HostConfig) (t : Z) : option exn :=
  match connect w 1 host t with
  | Some e => Some e
  | None => open_sftp w host
  end.

(** The events of the loop over the paths. *)
Definition is_transfer_event (ev : event) : bool :=
  is_makedirs ev || is_get ev || is_stderr ev.

(** The message of the failure to load the configuration, if any: that of
    the exception of reading it, or the complaint about an empty list. *)
Definition config_error (w : World) (config_path : string) : option string :=
  match read_config w config_path with
  | Raise e => Some (exn_msg e)
  | Ok [] => Some "No hosts found in config."
  | Ok (_ :: _) => None
  end.


(** A row that counts both as an error and as no match: its code is neither
    0 nor 1 and it has no path. *)
Definition is_error_without_paths (r : ResultRow) : bool :=
  is_error_row r && (row_count r =? 0)%nat.

(** Two worlds whose searches answer alike. *)
Definition same_searches (w w' : World) : Prop :=
  (forall host t, connect w 0 host t = connect w' 0 host t)
  /\ (forall host cmd t, exec_command w host cmd t = exec_command w' host cmd t).

(** The components of the tuple that a search returns. *)
Definition result_name (r : HostResult) : string := fst (fst (fst r)).
Definition result_code (r : HostResult) : Z := snd (fst (fst r)).
Definition result_paths (r : HostResult) : list string := snd (fst r).
Definition result_err (r : HostResult) : string := snd r.

(** Standard output accepts every line. *)
Definition stdout_works (w : World) : Prop :=
  forall s, stdout_write w s = None.

(** [sys.exit(main())]: the status with which the process ends. An exception
    that leaves [main] is reported by the interpreter, which then ends with
    status 1. *)
Definition exit_status (w : World) (args : Args) : Z :=
  match outcome_of (main w args) with
  | Ok rc => rc
  | Raise _ => 1%Z
  end.

(** The message of the exception raised inside the [try] of [main], if any:
    that of loading the hosts, or else that of printing them. *)
Definition startup_error (w : World) (args : Args) : option string :=
  match outcome_of (load_hosts w (config args)) with
  | Raise e => Some (exn_msg e)
  | Ok hosts =>
      match write_hosts w hosts with
      | Some e => Some (exn_msg e)
      | None => None
      end
  end.

(* ================================================================== *)
(** * Proofs *)

(* ------------------------------------------------------------------ *)
(** * Basic facts about the monad *)

Section MonadFacts.

Context {A B : Type}.

Lemma outcome_bind_ok (m : M A) (k : A -> M B) (a : A) :
  outcome_of m = Ok a -> outcome_of (bind m k) = outcome_of (k a).
Proof.
  destruct m as [l r]; simpl; intros ->.
  destruct (k a); reflexivity.
Qed.

Lemma outcome_bind_raise (m : M A) (k : A -> M B) (e : exn) :
  outcome_of m = Raise e -> outcome_of (bind m k) = Raise e.
Proof.
  destruct m as [l r]; simpl; intros ->; reflexivity.
Qed.

Lemma log_bind_ok (m : M A) (k : A -> M B) (a : A) :
  outcome_of m = Ok a -> log_of (bind m k) = (log_of m ++ log_of (k a))%list.
Proof.
  destruct m as [l r]; simpl; intros ->.
  destruct (k a); reflexivity.
Qed.

Lemma log_bind_raise (m : M A) (k : A -> M B) (e : exn) :
  outcome_of m = Raise e -> log_of (bind m k) = log_of m.
Proof.
  destruct m as [l r]; simpl; intros ->; reflexivity.
Qed.

Lemma outcome_try_ok (m : M A) (classes : exn -> bool) (h : exn -> M B)
    (k : A -> M B) (a : A) :
  outcome_of m = Ok a -> outcome_of (try_except_return m classes h k) = outcome_of (k a).
Proof.
  destruct m as [l r]; simpl; intros ->.
  destruct (k a); reflexivity.
Qed.

Lemma outcome_try_caught (m : M A) (classes : exn -> bool) (h : exn -> M B)
    (k : A -> M B) (e : exn) :
  outcome_of m = Raise e -> classes e = true ->
  outcome_of (try_except_return m classes h k) = outcome_of (h e).
Proof.
  destruct m as [l r]; simpl; intros -> ->.
  destruct (h e); reflexivity.
Qed.

End MonadFacts.

Lemma outcome_bind {A B} (m : M A) (k : A -> M B) :
  outcome_of (bind m k) =
  match outcome_of m with
  | Ok a => outcome_of (k a)
  | Raise e => Raise e
  end.
Proof.
  destruct m as [l [a|e]]; simpl; [|reflexivity].
  destruct (k a); reflexivity.
Qed.

Lemma log_bind {A B} (m : M A) (k : A -> M B) :
  log_of (bind m k) =
  (log_of m ++ match outcome_of m with
               | Ok a => log_of (k a)
               | Raise _ => []
               end)%list.
Proof.
  destruct m as [l [a|e]]; simpl.
  - destruct (k a); reflexivity.
  - rewrite app_nil_r. reflexivity.
Qed.

Lemma outcome_try {A B} (m : M A) (classes : exn -> bool) (h : exn -> M B)
    (k : A -> M B) :
  outcome_of (try_except_return m classes h k) =
  match outcome_of m with
  | Ok a => outcome_of (k a)
  | Raise e => if classes e then outcome_of (h e) else Raise e
  end.
Proof.
  destruct m as [l [a|e]]; simpl.
  - destruct (k a); reflexivity.
  - destruct (classes e); [destruct (h e)|]; reflexivity.
Qed.

(* ------------------------------------------------------------------ *)
(** * What a log can hold *)

Section LogFacts.

Variable P : event -> bool.

Lemma log_all_ret {A} (a : A) : log_all P (ret a).
Proof. reflexivity. Qed.



Lemma log_all_call (r : option exn) : log_all P (call r).
Proof. destruct r; reflexivity. Qed.

Lemma log_all_emit (ev : event) : P ev = true -> log_all P (emit ev).
Proof. unfold log_all; simpl. intros ->. reflexivity. Qed.

Lemma log_all_bind {A B} (m : M A) (k : A -> M B) :
  log_all P m -> (forall a, log_all P (k a)) -> log_all P (bind m k).
Proof.
  unfold log_all. destruct m as [l [a|e]]; simpl; intros Hm Hk; [|exact Hm].
  specialize (Hk a). destruct (k a) as [l' r]. simpl in *.
  rewrite forallb_app, Hm, Hk. reflexivity.
Qed.


Lemma log_all_swallow (m : M unit) : log_all P m -> log_all P (swallow m).
Proof. unfold log_all, swallow. simpl. trivial. Qed.

Lemma log_all_try_finally {A} (m : M A) (fin : M unit) :
  log_all P m -> log_all P fin -> log_all P (try_finally m fin).
Proof.
  unfold log_all, try_finally. destruct m as [l r], fin as [l' [u|e]]; simpl;
    intros Hm Hf; rewrite forallb_app, Hm, Hf; reflexivity.
Qed.

Lemma log_all_for_each {A} (l : list A) (body : A -> M unit) :
  (forall x, log_all P (body x)) -> log_all P (for_each l body).
Proof.
  intros Hb. induction l as [|x l IH]; cbn [for_each].
  - apply log_all_ret.
  - apply log_all_bind; [apply Hb | intros _; exact IH].
Qed.

End LogFacts.

Lemma log_all_count_zero {A} (P Q : event -> bool) (m : M A) :
  log_all P m -> (forall ev, P ev = true -> Q ev = false) ->
  count_events Q (log_of m) = 0%nat.
Proof.
  unfold log_all, count_events. intros Hall HPQ.
  induction (log_of m) as [|ev l IH]; [reflexivity|].
  simpl in *. apply andb_true_iff in Hall as [Hev Hl].
  rewrite (HPQ ev Hev). exact (IH Hl).
Qed.

(* ------------------------------------------------------------------ *)
(** * Printing *)

(** What the printing functions write, whatever standard output answers. *)
Section PrintLogs.

Variable P : event -> bool.
Hypothesis P_stdout : forall s, P (EvStdout s) = true.

Lemma log_all_print w s : log_all P (print w s).
Proof.
  unfold print. apply log_all_bind; [apply log_all_call | intros _].
  apply log_all_emit, P_stdout.
Qed.

Lemma log_all_print_each {A} w (l : list A) (f : A -> string) :
  log_all P (for_each l (fun x => print w (f x))).
Proof. apply log_all_for_each. intros x. apply log_all_print. Qed.

Lemma log_all_host_results w name code paths err :
  log_all P (print_host_results w name code paths err).
Proof.
  unfold print_host_results.
  repeat first
    [ apply log_all_print
    | apply log_all_ret
    | apply log_all_print_each
    | match goal with
      | |- log_all _ (match ?x with _ => _ end) => destruct x
      | |- log_all _ (if ?x then _ else _) => destruct x
      end
    | apply log_all_bind; [|intros _] ].
Qed.

Lemma log_all_downloaded w name dl : log_all P (print_downloaded w name dl).
Proof.
  unfold print_downloaded. destruct dl as [|x dl]; [apply log_all_ret|].
  apply log_all_bind; [apply log_all_print | intros _; apply log_all_print_each].
Qed.


End PrintLogs.

(** When standard output accepts every line, the printing functions
    return. *)
Lemma only_prints_print w (s : string) : stdout_works w -> only_prints (print w s).
Proof.
  intros Hw. unfold only_prints, print. rewrite (Hw s). split; reflexivity.
Qed.

Lemma only_prints_ret : only_prints (ret tt).
Proof. split; reflexivity. Qed.

Lemma only_prints_bind (m : M unit) (k : unit -> M unit) :
  only_prints m -> only_prints (k tt) -> only_prints (bind m k).
Proof.
  intros [Hm Lm] [Hk Lk]. split.
  - rewrite (outcome_bind_ok _ _ Hm). exact Hk.
  - rewrite (log_bind_ok _ _ Hm), forallb_app, Lm, Lk. reflexivity.
Qed.

Lemma only_prints_for_each {A} w (l : list A) (f : A -> string) :
  stdout_works w -> only_prints (for_each l (fun x => print w (f x))).
Proof.
  intros Hw. induction l as [|x l IH]; cbn [for_each].
  - apply only_prints_ret.
  - apply (@only_prints_bind (print w (f x))); [apply only_prints_print, Hw | exact IH].
Qed.


Lemma only_prints_downloaded w (name : string) (dl : list (string * string)) :
  stdout_works w -> only_prints (print_downloaded w name dl).
Proof.
  intros Hw. unfold print_downloaded. destruct dl as [|x dl].
  - apply only_prints_ret.
  - apply only_prints_bind; [apply only_prints_print, Hw | apply only_prints_for_each, Hw].
Qed.


(* ------------------------------------------------------------------ *)
(** * The summary *)

Lemma sum_ones_length {A} (p : A -> bool) (l : list A) :
  sum_ones p l = List.length (filter p l).
Proof.
  unfold sum_ones. induction (filter p l) as [|x f IH]; simpl; congruence.
Qed.

Lemma sum_ones_cons {A} (p : A -> bool) (x : A) (l : list A) :
  sum_ones p (x :: l) = ((if p x then 1 else 0) + sum_ones p l)%nat.
Proof.
  unfold sum_ones; simpl. destruct (p x); reflexivity.
Qed.

Lemma sum_ones_zero {A} (p : A -> bool) (l : list A) :
  sum_ones p l = 0%nat <-> Forall (fun x => p x = false) l.
Proof.
  induction l as [|x l IH].
  - split; [constructor | reflexivity].
  - rewrite sum_ones_cons. split.
    + intros H. destruct (p x) eqn:E; [discriminate|].
      constructor; [exact E | apply IH; exact H].
    + intros H. inversion H as [|? ? Hx Hl]; subst.
      rewrite Hx. apply IH; exact Hl.
Qed.

Lemma sum_ones_perm {A} (p : A -> bool) (l l' : list A) :
  Permutation l l' -> sum_ones p l = sum_ones p l'.
Proof.
  induction 1; rewrite ?sum_ones_cons; lia.
Qed.

Lemma is_error_row_status (r : ResultRow) :
  is_error_row r = true <-> is_failure_status (outcome_status (row_code r)).
Proof.
  unfold is_error_row, is_failure_status, outcome_status.
  destruct (row_code r =? 0)%Z; [simpl; split; [discriminate | intros [H|H]; discriminate]|].
  destruct (row_code r =? 1)%Z; [simpl; split; [discriminate | intros [H|H]; discriminate]|].
  simpl. split; [intros _ | reflexivity].
  destruct (row_code r =? 2)%Z; [left; reflexivity|].
  destruct (row_code r =? 255)%Z; [right | left]; reflexivity.
Qed.

Lemma exit_signal_nonzero (results : list ResultRow) :
  exit_signal results <> 0%Z <->
  Exists (fun r => is_failure_status (outcome_status (row_code r))) results.
Proof.
  unfold exit_signal, error_hosts.
  destruct (sum_ones is_error_row results =? 0)%nat eqn:E.
  - apply Nat.eqb_eq, sum_ones_zero in E. split; [intros H; now elim H|].
    intros Hex. apply Exists_exists in Hex as (r & Hin & Hr).
    rewrite Forall_forall in E. apply is_error_row_status in Hr.
    rewrite (E r Hin) in Hr. discriminate.
  - split; [intros _ | discriminate].
    apply Nat.eqb_neq in E.
    apply Exists_exists.
    destruct (Forall_Exists_dec (fun r => is_error_row r = false)
                (fun r => bool_dec (is_error_row r) false) results) as [Hall|Hex].
    + elim E. apply sum_ones_zero. exact Hall.
    + apply Exists_exists in Hex as (r & Hin & Hr).
      exists r. split; [exact Hin|]. apply is_error_row_status.
      destruct (is_error_row r); [reflexivity | now elim Hr].
Qed.

Lemma summarize_perm rs rs' ds ds' :
  Permutation rs rs' -> Permutation ds ds' -> summarize rs ds = summarize rs' ds'.
Proof.
  intros Hr Hd. unfold summarize, total_hosts, matched_hosts, no_match_hosts, error_hosts.
  rewrite (Permutation_length Hr), (Permutation_length Hd).
  rewrite (sum_ones_perm is_matched_row Hr), (sum_ones_perm is_no_match_row Hr),
    (sum_ones_perm is_error_row Hr).
  reflexivity.
Qed.

Lemma exit_signal_perm rs rs' :
  Permutation rs rs' -> exit_signal rs = exit_signal rs'.
Proof.
  intros Hp. unfold exit_signal, error_hosts.
  rewrite (sum_ones_perm is_error_row Hp). reflexivity.
Qed.

(* ------------------------------------------------------------------ *)
(** * The loop of [main], host by host *)

Lemma process_host_outcome w args rs ds host :
  outcome_of (process_host w args (rs, ds) host) =
  match iteration_of w args host with
  | Ok d => Ok ((rs ++ [row_of w args host])%list, (ds ++ d)%list)
  | Raise e => Raise e
  end.
Proof.
  unfold process_host, row_of, iteration_of.
  destruct (host_outcome w args host) as [[[name code] paths] err].
  rewrite outcome_bind.
  destruct (outcome_of (print_host_results w name code paths err)) as [[]|e];
    [|reflexivity].
  destruct (wants_download args code paths).
  - rewrite outcome_bind.
    destruct (outcome_of (sftp_download_files w host paths (dest args) (timeout args)))
      as [dl|e]; [|reflexivity].
    rewrite outcome_bind.
    destruct (outcome_of (print_downloaded w name dl)) as [[]|e]; reflexivity.
  - rewrite app_nil_r. reflexivity.
Qed.

Lemma main_loop_outcome w args order : forall rs ds,
  outcome_of (main_loop w args order (rs, ds)) =
  match iterations w args order with
  | Ok d => Ok ((rs ++ map (row_of w args) order)%list, (ds ++ d)%list)
  | Raise e => Raise e
  end.
Proof.
  induction order as [|host rest IH]; intros rs ds; cbn [main_loop iterations map].
  - rewrite !app_nil_r. reflexivity.
  - pose proof (process_host_outcome w args rs ds host) as Hp.
    destruct (iteration_of w args host) as [d|e].
    + rewrite (outcome_bind_ok _ _ Hp), IH.
      destruct (iterations w args rest) as [d'|e']; [|reflexivity].
      rewrite <- !app_assoc. reflexivity.
    + rewrite (outcome_bind_raise _ _ Hp). reflexivity.
Qed.

(** An iteration that completes has recorded what its retrieval gave. *)
Lemma iteration_of_retrieval w args host d :
  iteration_of w args host = Ok d -> retrieval_of w args host = Ok d.
Proof.
  unfold iteration_of, retrieval_of.
  destruct (host_outcome w args host) as [[[name code] paths] err].
  destruct (outcome_of (print_host_results w name code paths err)); [|discriminate].
  destruct (wants_download args code paths); [|trivial].
  destruct (outcome_of (sftp_download_files w host paths (dest args) (timeout args)))
    as [dl|e]; [|discriminate].
  destruct (outcome_of (print_downloaded w name dl)); [trivial | discriminate].
Qed.

Lemma wants_download_off args code paths :
  download args <> 1%Z -> wants_download args code paths = false.
Proof.
  intros Hd. unfold wants_download.
  destruct (download args =? 1)%Z eqn:E; [apply Z.eqb_eq in E; contradiction|].
  reflexivity.
Qed.


Lemma iterations_nil_without_download w args order : forall d,
  download args <> 1%Z -> iterations w args order = Ok d -> d = [].
Proof.
  induction order as [|host rest IH]; intros d Hd; cbn [iterations].
  - intros H. injection H as <-. reflexivity.
  - destruct (iteration_of w args host) as [d1|e] eqn:E1; [|discriminate].
    destruct (iterations w args rest) as [d2|e]; [|discriminate].
    intros H. injection H as <-.
    rewrite (IH d2 Hd eq_refl), app_nil_r.
    apply iteration_of_retrieval in E1. unfold retrieval_of in E1.
    destruct (host_outcome w args host) as [[[name code] paths] err].
    rewrite (wants_download_off args code paths Hd) in E1.
    injection E1 as <-. reflexivity.
Qed.

(** The order of completion changes neither whether some iteration raises
    nor, up to order, the downloads recorded. *)
Lemma iterations_perm w args o1 o2 :
  Permutation o1 o2 ->
  match iterations w args o1, iterations w args o2 with
  | Ok d1, Ok d2 => Permutation d1 d2
  | Raise _, Raise _ => True
  | _, _ => False
  end.
Proof.
  induction 1 as [|x l l' _ IH|x y l|l l' l'' _ IH1 _ IH2]; cbn [iterations].
  - constructor.
  - destruct (iteration_of w args x); [|exact I].
    destruct (iterations w args l), (iterations w args l'); try exact IH; try exact I.
    apply Permutation_app_head; exact IH.
  - destruct (iteration_of w args x), (iteration_of w args y),
      (iterations w args l); try exact I.
    rewrite !app_assoc. apply Permutation_app_tail, Permutation_app_comm.
  - destruct (iterations w args l), (iterations w args l'), (iterations w args l'');
      try exact I; try contradiction.
    eapply Permutation_trans; eassumption.
Qed.

(* ------------------------------------------------------------------ *)
(** * The exit signal and the summary of a run *)

Lemma exists_host_row w args (P : ResultRow -> Prop) hosts order :
  Permutation hosts order ->
  (Exists P (map (row_of w args) order) <->
   exists h, In h hosts /\ P (row_of w args h)).
Proof.
  intros Hp. rewrite Exists_exists. split.
  - intros (r & Hin & HP). apply in_map_iff in Hin as (h & <- & Hh).
    exists h. split; [|exact HP].
    eapply Permutation_in; [apply Permutation_sym; exact Hp | exact Hh].
  - intros (h & Hin & HP). exists (row_of w args h). split; [|exact HP].
    apply in_map. eapply Permutation_in; eassumption.
Qed.

Lemma run_hosts_outcome w args hosts :
  outcome_of (run_hosts w args hosts) =
  match iterations w args (as_completed w hosts) with
  | Ok d => Ok (map (row_of w args) (as_completed w hosts), d)
  | Raise e => Raise e
  end.
Proof.
  unfold run_hosts.
  rewrite (outcome_bind_ok (emit (EvPool (Z.max (parallel args) 1))) _ (a:=tt) eq_refl).
  rewrite main_loop_outcome. reflexivity.
Qed.

Lemma load_hosts_outcome w config_path :
  outcome_of (load_hosts w config_path) =
  match read_config w config_path with
  | Raise e => Raise e
  | Ok [] => Raise (mkExn ValueError "No hosts found in config.")
  | Ok (x :: entries) => Ok (map host_of_entry (x :: entries))
  end.
Proof.
  unfold load_hosts, lift, bind.
  destruct (read_config w config_path) as [[|x entries]|e]; reflexivity.
Qed.

(** What [main] gives: 2 when loading or printing the hosts raises, the
    exception that leaves the loop or the printing of the summary, or else
    the exit signal of the rows. *)
Lemma main_outcome w args :
  outcome_of (main w args) =
  match outcome_of (load_hosts w (config args)) with
  | Raise _ => Ok 2%Z
  | Ok hosts =>
      match write_hosts w hosts with
      | Some _ => Ok 2%Z
      | None =>
          match outcome_of (run_hosts w args hosts) with
          | Raise e => Raise e
          | Ok (rs, ds) =>
              match outcome_of (print_summary w args (summarize rs ds)) with
              | Ok _ => Ok (exit_signal rs)
              | Raise e => Raise e
              end
          end
      end
  end.
Proof.
  unfold main. rewrite outcome_try, outcome_bind.
  destruct (outcome_of (load_hosts w (config args))) as [hosts|e]; [|reflexivity].
  rewrite outcome_bind. unfold print_hosts at 1. rewrite outcome_bind.
  destruct (write_hosts w hosts) as [e|]; [reflexivity|]. cbn [call ret outcome_of snd emit].
  rewrite outcome_bind.
  destruct (outcome_of (run_hosts w args hosts)) as [[rs ds]|e]; [|reflexivity].
  rewrite outcome_bind.
  destruct (outcome_of (print_summary w args (summarize rs ds))) as [[]|e]; reflexivity.
Qed.

Lemma exit_signal_0_or_1 rs : exit_signal rs = 0%Z \/ exit_signal rs = 1%Z.
Proof. unfold exit_signal. destruct (error_hosts rs =? 0)%nat; auto. Qed.

(** When the loop completes, the exit signal of its rows is non-zero exactly
    when some host ended in RemoteError or ConnectionFailure. *)
Lemma completed_loop_signal_iff_failed_host w args hosts rs ds :
  completes_each_once w ->
  outcome_of (run_hosts w args hosts) = Ok (rs, ds) ->
  (exit_signal rs <> 0%Z <->
   exists h, In h hosts /\ is_failure_status (host_status w args h)).
Proof.
  intros Hperm Hrun. rewrite run_hosts_outcome in Hrun.
  destruct (iterations w args (as_completed w hosts)) as [d|e]; [|discriminate].
  injection Hrun as <- <-.
  rewrite exit_signal_nonzero.
  apply (exists_host_row w args
           (fun r => is_failure_status (outcome_status (row_code r)))
           (Hperm hosts)).
Qed.

(** C5, at the failing input. Three hosts are submitted with [--download 1]
    and all three are reached: the first ends in Matched, the other two in
    NoMatch, none in RemoteError or ConnectionFailure. The directory for the
    file of the first host cannot be made; the exception leaves the
    retrieval, the loop and [main], and the process ends with status 1. *)
Theorem crashed_run_exits_nonzero_without_failed_host :
  outcome_of (load_hosts MoreExamples.w_nofail (config Examples.args_download))
    = Ok [Examples.h1; Examples.h2; Examples.h3]
  /\ map (host_status MoreExamples.w_nofail Examples.args_download)
       [Examples.h1; Examples.h2; Examples.h3]
     = [Matched; NoMatch; NoMatch]
  /\ outcome_of (main MoreExamples.w_nofail Examples.args_download)
     = Raise (mkExn PermissionError "[Errno 13] Permission denied")
  /\ exit_status MoreExamples.w_nofail Examples.args_download = 1%Z.
Proof.
  repeat split.
Qed.

(** C9. For a fixed set of hosts, the summary of a run (hosts total, matched,
    no match, errors, files downloaded) is the same for every order in which
    the hosts complete; a run that is cut short by an exception is cut short
    in every order. *)
Theorem summary_independent_of_completion_order w args hosts o1 o2 :
  Permutation hosts o1 -> Permutation hosts o2 ->
  run_summary w args o1 = run_summary w args o2.
Proof.
  intros H1 H2.
  assert (Hp : Permutation o1 o2)
    by (eapply Permutation_trans; [apply Permutation_sym; exact H1 | exact H2]).
  unfold run_summary. rewrite !main_loop_outcome.
  pose proof (iterations_perm w args Hp) as Hr.
  destruct (iterations w args o1) as [d1|e1], (iterations w args o2) as [d2|e2];
    try contradiction; [|reflexivity].
  cbn [app]. f_equal.
  apply summarize_perm; [apply Permutation_map; exact Hp | exact Hr].
Qed.

Lemma summary_independent_of_completion_order_witness :
  run_summary Examples.w_ok Examples.args_download
    [Examples.h3; Examples.h2; Examples.h1] =
  run_summary Examples.w_ok Examples.args_download
    [Examples.h2; Examples.h1; Examples.h3].
Proof.
  apply (@summary_independent_of_completion_order Examples.w_ok Examples.args_download
           [Examples.h1; Examples.h2; Examples.h3]).
  - apply Permutation_rev.
  - apply perm_trans with [Examples.h2; Examples.h1; Examples.h3];
      [apply perm_swap | apply Permutation_refl].
Defined.

(** C10. A host adds one to the no-match count exactly when its exit code is
    1 or it has no matched path. So the row of a host that could not be
    reached (code 255, no paths) is counted as no match and as error, the row
    of a host with exit code 0 and no paths is counted as no match and not as
    matched, and the three counts need not add up to the number of hosts: in
    the example run of three hosts they are 1, 2 and 1. *)
Theorem no_match_count_overlaps_error_count :
  (forall r results,
     no_match_hosts (r :: results) =
     ((if (row_code r =? 1)%Z || (row_count r =? 0)%nat then 1 else 0)
      + no_match_hosts results)%nat)
  /\ no_match_hosts [] = 0%nat
  /\ (forall name,
        outcome_status ssh_failure_code = ConnectionFailure /\
        no_match_hosts [(name, ssh_failure_code, 0%nat)] = 1%nat /\
        error_hosts [(name, ssh_failure_code, 0%nat)] = 1%nat)
  /\ (forall name,
        no_match_hosts [(name, 0%Z, 0%nat)] = 1%nat /\
        matched_hosts [(name, 0%Z, 0%nat)] = 0%nat)
  /\ (exists results,
        (matched_hosts results + no_match_hosts results + error_hosts results
         <> total_hosts results)%nat)
  /\ run_summary Examples.w_ok Examples.args_search
        [Examples.h1; Examples.h2; Examples.h3]
     = Some (mkSummary 3 1 2 1 0).
Proof.
  split; [|split; [|split; [|split; [|split]]]].
  - intros r results. unfold no_match_hosts. rewrite sum_ones_cons. reflexivity.
  - reflexivity.
  - intros name. repeat split.
  - intros name. split; reflexivity.
  - exists [("h2", ssh_failure_code, 0%nat)]. vm_compute. discriminate.
  - reflexivity.
Qed.

(* ------------------------------------------------------------------ *)
(** * When retrieval is invoked *)

Lemma stdout_only_no_connect (l : list event) host t :
  forallb is_stdout l = true -> ~ In (EvConnect host t) l.
Proof.
  intros Hall Hin. rewrite forallb_forall in Hall.
  specialize (Hall _ Hin). discriminate.
Qed.

Lemma wants_download_true args code paths :
  wants_download args code paths = true <->
  outcome_status code = Matched /\ paths <> [] /\ download args = 1%Z.
Proof.
  unfold wants_download, outcome_status.
  destruct (download args =? 1)%Z eqn:Ed;
    [apply Z.eqb_eq in Ed | apply Z.eqb_neq in Ed];
    (destruct (code =? 0)%Z eqn:Ec;
     [| destruct (code =? 1)%Z, (code =? 2)%Z, (code =? 255)%Z ]);
    destruct paths; simpl; split;
      try discriminate; try (intros (? & ? & ?); congruence);
      try (intros _; repeat split; congruence).
Qed.

(** In one iteration of the loop, a retrieval is made only for a host whose
    outcome is Matched, with paths, under [--download 1]. *)
Lemma retrieval_in_iteration_only_if_wanted w args st host :
  retrieval_invoked args host (log_of (process_host w args st host)) ->
  host_status w args host = Matched
  /\ result_paths (host_outcome w args host) <> []
  /\ download args = 1%Z.
Proof.
  unfold retrieval_invoked, host_status, row_of, process_host, result_paths.
  destruct st as [rs ds].
  destruct (host_outcome w args host) as [[[name code] paths] err].
  cbn [fst snd row_code].
  rewrite <- wants_download_true, log_bind, in_app_iff.
  intros [Hin|Hin].
  - exfalso. exact (stdout_only_no_connect _ _ _
                      (log_all_host_results is_stdout (fun _ => eq_refl)
                         w name code paths err) Hin).
  - destruct (outcome_of (print_host_results w name code paths err)); [|destruct Hin].
    destruct (wants_download args code paths); [reflexivity | destruct Hin].
Qed.

(** C6, at the failing input. Two hosts are submitted with [--download 1];
    both end in Matched with one path. The retrieval of the first, which
    completes first, is invoked and raises, because its directory cannot be
    made; the exception leaves the loop and [main], and no retrieval is
    invoked for the second host, though it is Matched, has a path and the
    flag is set. *)
Theorem matched_host_not_retrieved_after_failed_retrieval :
  host_status MoreExamples.w_two Examples.args_download Examples.h2 = Matched
  /\ result_paths (host_outcome MoreExamples.w_two Examples.args_download Examples.h2)
     = ["/a/b"]
  /\ download Examples.args_download = 1%Z
  /\ retrieval_invoked Examples.args_download Examples.h1
       (log_of (main MoreExamples.w_two Examples.args_download))
  /\ ~ retrieval_invoked Examples.args_download Examples.h2
         (log_of (main MoreExamples.w_two Examples.args_download))
  /\ outcome_of (main MoreExamples.w_two Examples.args_download)
     = Raise (mkExn PermissionError "[Errno 13] Permission denied").
Proof.
  split; [reflexivity|]. split; [reflexivity|]. split; [reflexivity|].
  split; [|split; [|reflexivity]].
  - unfold retrieval_invoked. vm_compute. tauto.
  - unfold retrieval_invoked. intros Hin. vm_compute in Hin.
    repeat (destruct Hin as [Hin|Hin]; [discriminate Hin|]). exact Hin.
Qed.

(* ------------------------------------------------------------------ *)
(** * The search on one host *)

Lemma run_list_on_host_connected w host search path_glob t out err status :
  connect w 0 host t = None ->
  exec_command w host (build_list_command search path_glob) t = Ok (out, err, status) ->
  run_list_on_host w host search path_glob t =
  ([EvConnect host t; EvExec host (build_list_command search path_glob) t;
    EvCloseClient host],
   Ok (hostname host, status, parse_paths out, err)).
Proof.
  intros Hc He.
  unfold run_list_on_host, try_except_return, connect_ssh, try_finally, swallow,
    client_close, lift, call, emit, bind, ret.
  rewrite Hc. cbn. rewrite He. cbn.
  destruct (close_client w host); reflexivity.
Qed.

Lemma run_list_on_host_unreachable w host search path_glob t e :
  connect w 0 host t = Some e ->
  is_ssh_or_socket_error e = true ->
  run_list_on_host w host search path_glob t =
  ([EvConnect host t],
   Ok (hostname host, ssh_failure_code, [], "SSH/Network error: " ++ exn_msg e)).
Proof.
  intros Hc He.
  unfold run_list_on_host, try_except_return, connect_ssh, call, emit, bind, ret, raise.
  rewrite Hc. cbn. rewrite He. reflexivity.
Qed.

(** C2, as the code has it. When the session opens and the remote command
    finishes with exit status 1, the outcome has exit code 1, which is
    NoMatch, and its matched paths are the stripped non-blank lines of the
    standard output: stray output is kept, not discarded. *)
Theorem exit_status_1_keeps_output_lines w host search path_glob t out err :
  connect w 0 host t = None ->
  exec_command w host (build_list_command search path_glob) t = Ok (out, err, 1%Z) ->
  outcome_of (run_list_on_host w host search path_glob t) =
    Ok (hostname host, 1%Z, parse_paths out, err)
  /\ outcome_status 1 = NoMatch.
Proof.
  intros Hc He.
  rewrite (run_list_on_host_connected w host search path_glob t Hc He).
  split; reflexivity.
Qed.

Lemma exit_status_1_keeps_output_lines_witness :
  outcome_of (run_list_on_host Examples.w_ok Examples.h3 "a.c" "/var/log/*" 120) =
    Ok ("h3", 1%Z, parse_paths ("stray" ++ nl), "")
  /\ outcome_status 1 = NoMatch.
Proof.
  apply (@exit_status_1_keeps_output_lines Examples.w_ok Examples.h3
           "a.c" "/var/log/*" 120%Z ("stray" ++ nl) "");
    reflexivity.
Defined.

(** C2, counterexample. On [h3] the command exits with status 1 after
    printing one stray line, and the outcome lists that line as a matched
    path. *)
Lemma exit_status_1_paths_not_empty :
  exec_command Examples.w_ok Examples.h3 (build_list_command "a.c" "/var/log/*") 120
    = Ok ("stray" ++ nl, "", 1%Z)
  /\ outcome_of (run_list_on_host Examples.w_ok Examples.h3 "a.c" "/var/log/*" 120)
    = Ok ("h3", 1%Z, ["stray"], "")
  /\ ["stray"] <> @nil string.
Proof.
  repeat split. discriminate.
Qed.

(** C8, as the code has it. When the session cannot be established because
    of an authentication, SSH or socket error, the search returns exit code
    255, which is ConnectionFailure and differs from 0, 1 and 2, with no
    matched paths and a diagnostic that starts with the text
    SSH/Network error; nothing is executed on the host. *)
Theorem unreachable_host_gets_255 w host search path_glob t e :
  connect w 0 host t = Some e ->
  is_ssh_or_socket_error e = true ->
  outcome_of (run_list_on_host w host search path_glob t) =
    Ok (hostname host, ssh_failure_code, [], "SSH/Network error: " ++ exn_msg e)
  /\ outcome_status ssh_failure_code = ConnectionFailure
  /\ (ssh_failure_code <> 0 /\ ssh_failure_code <> 1 /\ ssh_failure_code <> 2)%Z
  /\ (forall h cmd t', ~ In (EvExec h cmd t')
                         (log_of (run_list_on_host w host search path_glob t))).
Proof.
  intros Hc He.
  rewrite (run_list_on_host_unreachable w host search path_glob t Hc He).
  split; [reflexivity|]. split; [reflexivity|].
  split; [repeat split; discriminate|].
  intros h cmd t' [Hin|[]]. discriminate.
Qed.

Lemma unreachable_host_gets_255_witness :
  outcome_of (run_list_on_host Examples.w_ok Examples.h2 "a.c" "/var/log/*" 120) =
    Ok ("h2", ssh_failure_code, [], "SSH/Network error: " ++ "timed out")
  /\ outcome_status ssh_failure_code = ConnectionFailure
  /\ (ssh_failure_code <> 0 /\ ssh_failure_code <> 1 /\ ssh_failure_code <> 2)%Z
  /\ (forall h cmd t', ~ In (EvExec h cmd t')
        (log_of (run_list_on_host Examples.w_ok Examples.h2 "a.c" "/var/log/*" 120))).
Proof.
  apply (@unreachable_host_gets_255 Examples.w_ok Examples.h2 "a.c" "/var/log/*" 120%Z
           (mkExn SSHException "timed out"));
    reflexivity.
Defined.

(** C8, counterexample. The session to [h1] opens, the command is executed
    and exits with status 255: the outcome carries the very code that marks
    a host that could not be reached. *)
Lemma remote_exit_255_equals_sentinel :
  connect Examples.w_exit255 0 Examples.h1 120 = None
  /\ In (EvExec Examples.h1 (build_list_command "a.c" "/var/log/*") 120)
        (log_of (run_list_on_host Examples.w_exit255 Examples.h1 "a.c" "/var/log/*" 120))
  /\ outcome_of (run_list_on_host Examples.w_exit255 Examples.h1 "a.c" "/var/log/*" 120)
     = Ok ("h1", ssh_failure_code, [], "").
Proof.
  split; [reflexivity|]. split; [|reflexivity].
  right. left. reflexivity.
Qed.

(* ------------------------------------------------------------------ *)
(** * The retrieval on one host *)

Lemma count_events_app p l l' :
  count_events p (l ++ l') = (count_events p l + count_events p l')%nat.
Proof.
  unfold count_events. rewrite filter_app, length_app. reflexivity.
Qed.

Lemma download_loop_spec w host dest_root paths : forall acc,
  dirs_can_be_made w host dest_root paths ->
  exists l,
    download_loop w host dest_root paths acc
      = (l, Ok (acc ++ fetched w host dest_root paths)%list)
    /\ count_events is_get l = List.length paths
    /\ (count_events is_stderr l + List.length (fetched w host dest_root paths)
        = List.length paths)%nat.
Proof.
  induction paths as [|p rest IH]; intros acc Hdirs.
  - exists []. cbn. rewrite app_nil_r. repeat split.
  - assert (Hp : makedirs w (OsPath.dirname (local_path_of dest_root host p)) = None)
      by (apply Hdirs; left; reflexivity).
    assert (Hrest : dirs_can_be_made w host dest_root rest)
      by (intros q Hq; apply Hdirs; right; exact Hq).
    unfold fetched, get_succeeds in *.
    cbn [download_loop filter map].
    rewrite Hp.
    destruct (sftp_get w host p (local_path_of dest_root host p)) as [e|] eqn:Eg.
    + destruct (IH acc Hrest) as (l & Hl & Hg & Hs).
      unfold bind at 1 2 3 4. unfold emit, call, ret, eprint.
      destruct (exn_kind e); cbn; rewrite Hl;
        eexists; (split; [reflexivity|]);
        unfold count_events in *; cbn; rewrite Hg; (split; [reflexivity | lia]).
    + destruct (IH (acc ++ [(p, local_path_of dest_root host p)])%list Hrest)
        as (l & Hl & Hg & Hs).
      unfold bind at 1 2 3 4. unfold emit, call, ret.
      cbn. rewrite Hl, <- app_assoc.
      eexists; (split; [reflexivity|]).
      unfold count_events in *; cbn; rewrite Hg; (split; [reflexivity | lia]).
Qed.

(** C4, as the code has it. When the retrieval session opens and the local
    directories can be made, every path is attempted once, and the retriever
    returns one pair (remote path, local path) for each transfer that
    succeeds, in the order of the paths; a transfer that fails leaves no
    record in the result, only one line on standard error. *)
Theorem only_successful_transfers_returned w host paths dest_root t :
  connect w 1 host t = None ->
  open_sftp w host = None ->
  dirs_can_be_made w host dest_root paths ->
  outcome_of (sftp_download_files w host paths dest_root t)
    = Ok (fetched w host dest_root paths)
  /\ count_events is_get (log_of (sftp_download_files w host paths dest_root t))
     = List.length paths
  /\ (count_events is_stderr (log_of (sftp_download_files w host paths dest_root t))
      + List.length (fetched w host dest_root paths)
      = List.length paths)%nat.
Proof.
  intros Hc Ho Hdirs.
  destruct (download_loop_spec (w:=w) (host:=host) (dest_root:=dest_root)
              (paths:=paths) [] Hdirs) as (l & Hl & Hg & Hs).
  unfold sftp_download_files, try_except_return, connect_ssh, try_finally, swallow,
    sftp_close, client_close, call, emit, bind, ret.
  rewrite Hc. cbn. rewrite Ho. cbn. rewrite Hl. cbn.
  destruct (close_sftp w host), (close_client w host); cbn;
    (split; [reflexivity|]);
    unfold count_events in *; cbn;
    rewrite !filter_app, !length_app; cbn; split; lia.
Qed.

Lemma only_successful_transfers_returned_witness :
  outcome_of (sftp_download_files Examples.w_ok Examples.h1 ["/a/b"; "/a/c"] "out" 120)
    = Ok (fetched Examples.w_ok Examples.h1 "out" ["/a/b"; "/a/c"])
  /\ count_events is_get
       (log_of (sftp_download_files Examples.w_ok Examples.h1 ["/a/b"; "/a/c"] "out" 120))
     = List.length ["/a/b"; "/a/c"]
  /\ (count_events is_stderr
        (log_of (sftp_download_files Examples.w_ok Examples.h1 ["/a/b"; "/a/c"] "out" 120))
      + List.length (fetched Examples.w_ok Examples.h1 "out" ["/a/b"; "/a/c"])
      = List.length ["/a/b"; "/a/c"])%nat.
Proof.
  apply (@only_successful_transfers_returned Examples.w_ok Examples.h1
           ["/a/b"; "/a/c"] "out" 120%Z).
  - reflexivity.
  - reflexivity.
  - intros p _. reflexivity.
Defined.

(** C4, counterexample. Two files are attempted on [h1]; the second has
    vanished; the retriever returns a single pair, and nothing for the file
    that failed. *)
Lemma failed_transfer_leaves_no_record :
  count_events is_get
    (log_of (sftp_download_files Examples.w_ok Examples.h1 ["/a/b"; "/a/c"] "out" 120))
  = 2%nat
  /\ sftp_get Examples.w_ok Examples.h1 "/a/c" "out/h1/a/c"
     = Some (mkExn FileNotFoundError "No such file")
  /\ outcome_of (sftp_download_files Examples.w_ok Examples.h1 ["/a/b"; "/a/c"] "out" 120)
     = Ok [("/a/b", "out/h1/a/b")].
Proof.
  repeat split.
Qed.

(** C3, at the failing input. On [h1] the directory for the first file
    cannot be made, the directory for the second can. The exception of
    [os.makedirs] leaves [sftp_download_files], and the second file is never
    attempted. A failure of the transfer itself, on the other hand, is
    contained: in [download_loop_spec] every path is attempted whatever
    [sftp_get] answers. *)
Theorem makedirs_failure_aborts_batch :
  makedirs Examples.w_readonly
    (OsPath.dirname (local_path_of "out" Examples.h1 "/c/d")) = None
  /\ outcome_of
       (sftp_download_files Examples.w_readonly Examples.h1 ["/a/b"; "/c/d"] "out" 120)
     = Raise (mkExn PermissionError "[Errno 13] Permission denied")
  /\ count_events is_get
       (log_of (sftp_download_files Examples.w_readonly Examples.h1
                  ["/a/b"; "/c/d"] "out" 120))
     = 0%nat.
Proof.
  repeat split.
Qed.

(* ------------------------------------------------------------------ *)
(** * One record per host *)

(** When the loop completes, [results] holds the row of every host, in the
    order of completion. *)
Lemma rows_one_per_host_when_loop_completes w args hosts rs ds :
  completes_each_once w ->
  outcome_of (run_hosts w args hosts) = Ok (rs, ds) ->
  rs = map (row_of w args) (as_completed w hosts)
  /\ List.length rs = List.length hosts
  /\ Permutation (map (row_of w args) hosts) rs.
Proof.
  intros Hperm Hrun. rewrite run_hosts_outcome in Hrun.
  destruct (iterations w args (as_completed w hosts)); [|discriminate].
  injection Hrun as <- <-.
  split; [reflexivity|]. split.
  - rewrite length_map. symmetry. apply Permutation_length, Hperm.
  - apply Permutation_map, Hperm.
Qed.


(** An exception that leaves the worker becomes the row of a host that could
    not be reached. *)
Lemma worker_exception_row w args host e :
  future_result w args host = Raise e ->
  host_outcome w args host
  = (hostname host, ssh_failure_code, [], "Unhandled exception: " ++ exn_msg e)
  /\ host_status w args host = ConnectionFailure.
Proof.
  intros Hf. unfold host_status, row_of, host_outcome. rewrite Hf.
  split; reflexivity.
Qed.

(** C1, at the failing input. Three hosts are submitted with [--download 1];
    [h1] completes first and matches; the directory for its first file
    cannot be made. The exception leaves the loop and [main]: one host has
    been reported, and [h2] and [h3] get no record. The same hosts without
    [--download 1] are reported all three. *)
Theorem failed_retrieval_drops_remaining_hosts :
  outcome_of (load_hosts Examples.w_readonly (config Examples.args_download))
    = Ok [Examples.h1; Examples.h2; Examples.h3]
  /\ outcome_of (main Examples.w_readonly Examples.args_download)
     = Raise (mkExn PermissionError "[Errno 13] Permission denied")
  /\ count_events is_host_header
       (log_of (main Examples.w_readonly Examples.args_download)) = 1%nat
  /\ outcome_of (main Examples.w_readonly Examples.args_search) = Ok 1%Z
  /\ count_events is_host_header
       (log_of (main Examples.w_readonly Examples.args_search)) = 3%nat.
Proof.
  repeat split.
Qed.

(* ------------------------------------------------------------------ *)
(** * The command as the remote shell and [grep] read it *)

Lemma append_assoc (a b c : string) : (a ++ b) ++ c = a ++ (b ++ c).
Proof. induction a as [|x a IH]; simpl; congruence. Qed.

Lemma append_nil_r (a : string) : a ++ "" = a.
Proof. induction a as [|x a IH]; simpl; congruence. Qed.

Lemma safe_char_plain (c : ascii) :
  Shlex.safe_char c = true ->
  Sh.is_blank c = false /\ Ascii.eqb c Shlex.squote = false
  /\ Ascii.eqb c Shlex.dquote = false /\ Sh.is_glob c = false
  /\ Sh.is_plain c = true.
Proof.
  destruct c as [[] [] [] [] [] [] [] []]; vm_compute; intros H;
    first [discriminate H | repeat split].
Qed.

Lemma lex_safe (s rest : string) : forall t g,
  Shlex.all_safe s = true ->
  Sh.lex Sh.Unquoted (Some (t, g)) (s ++ rest)
  = Sh.lex Sh.Unquoted (Some (t ++ s, g)) rest.
Proof.
  induction s as [|c s IH]; intros t g Hs.
  - simpl. rewrite append_nil_r. reflexivity.
  - cbn [Shlex.all_safe] in Hs. apply andb_true_iff in Hs as [Hc Hs].
    destruct (safe_char_plain c Hc) as (Hb & Hq & Hd & Hg & Hp).
    cbn [append Sh.lex]. rewrite Hb, Hq, Hd, Hg, Hp.
    cbn [Sh.push]. rewrite (IH _ _ Hs), orb_false_r, append_assoc. reflexivity.
Qed.

Lemma lex_escaped (s rest : string) : forall t g,
  Sh.lex Sh.InSingle (Some (t, g))
    (Shlex.escape_squotes s ++ String Shlex.squote rest)
  = Sh.lex Sh.Unquoted (Some (t ++ s, g)) rest.
Proof.
  induction s as [|c s IH]; intros t g.
  - simpl. rewrite append_nil_r. reflexivity.
  - cbn [Shlex.escape_squotes].
    destruct (Ascii.eqb c Shlex.squote) eqn:Ec.
    + apply Ascii.eqb_eq in Ec. subst c.
      cbn. rewrite IH, !orb_false_r, append_assoc. reflexivity.
    + cbn [append Sh.lex]. rewrite Ec. cbn [Sh.push].
      rewrite IH, orb_false_r, append_assoc. reflexivity.
Qed.

(** The shell reads what [shlex.quote] wrote as one word, the string that was
    quoted, and expands nothing in it. *)
Lemma lex_quote (s rest : string) :
  Sh.lex Sh.Unquoted None (Shlex.quote s ++ rest)
  = Sh.lex Sh.Unquoted (Some (Sh.literal s)) rest.
Proof.
  unfold Shlex.quote, Sh.literal.
  destruct s as [|c s]; [reflexivity|].
  destruct (Shlex.all_safe (String c s)) eqn:Hs.
  - cbn [Shlex.all_safe] in Hs. apply andb_true_iff in Hs as [Hc Hs].
    destruct (safe_char_plain c Hc) as (Hb & Hq & Hd & Hg & Hp).
    cbn [append Sh.lex]. rewrite Hb, Hq, Hd, Hg, Hp. cbn [Sh.push].
    apply (lex_safe s rest (String c "") false Hs).
  - cbn [append]. rewrite append_assoc. cbn [append Sh.lex].
    rewrite Ascii.eqb_refl.
    assert (Hblank : Sh.is_blank Shlex.squote = false) by reflexivity.
    rewrite Hblank. cbn [Sh.open_word].
    apply (lex_escaped (String c s) rest "" false).
Qed.

Lemma words_quote (s : string) :
  Sh.words (Shlex.quote s) = Some [Sh.literal s].
Proof.
  unfold Sh.words. rewrite <- (append_nil_r (Shlex.quote s)), lex_quote. reflexivity.
Qed.

Lemma words_bash_prefix (r : string) :
  Sh.words ("bash -c " ++ r)
  = option_map (fun ws => Sh.literal "bash" :: Sh.literal "-c" :: ws) (Sh.words r).
Proof.
  unfold Sh.words. cbn. destruct (Sh.lex Sh.Unquoted None r); reflexivity.
Qed.

Lemma words_grep_prefix (r : string) :
  Sh.words ("LC_ALL=C grep -iln -- " ++ r)
  = option_map (fun ws => Sh.literal "LC_ALL=C" :: Sh.literal "grep"
                            :: Sh.literal "-iln" :: Sh.literal "--" :: ws)
               (Sh.words r).
Proof.
  unfold Sh.words. cbn. destruct (Sh.lex Sh.Unquoted None r); reflexivity.
Qed.

(** C7, what the command is. The remote shell reads the command as [bash],
    [-c] and the inner command as one literal word; [bash] reads the inner
    command as [grep] with the options [-iln], the end-of-options marker, the
    search term as one literal word, and the words of the path pattern,
    which are left to the shell. The options hold no [F]: [grep] takes the
    term, which is its pattern, as a regular expression and not as a fixed
    string. *)
Theorem grep_takes_term_as_regex search path_glob :
  Sh.words (build_list_command search path_glob)
    = Some [Sh.literal "bash"; Sh.literal "-c";
            Sh.literal (inner_command search path_glob)]
  /\ Sh.words (inner_command search path_glob)
    = option_map (fun ws => Sh.literal "LC_ALL=C" :: Sh.literal "grep"
                              :: Sh.literal "-iln" :: Sh.literal "--"
                              :: Sh.literal search :: ws)
                 (Sh.words path_glob)
  /\ (forall files,
        Grep.pattern ("-iln" :: "--" :: search :: files) = Some search
        /\ Grep.fixed_strings ("-iln" :: "--" :: search :: files) = false)
  /\ build_list_command "a.c" "/var/log/*"
     = "bash -c 'LC_ALL=C grep -iln -- a.c /var/log/*'".
Proof.
  split; [|split; [|split]].
  - unfold build_list_command. rewrite words_bash_prefix, words_quote. reflexivity.
  - unfold inner_command. rewrite words_grep_prefix.
    unfold Sh.words at 1. rewrite lex_quote.
    cbn [append Sh.lex]. change (Sh.is_blank " ") with true. cbn [Sh.close_word].
    fold (Sh.words path_glob).
    destruct (Sh.words path_glob); reflexivity.
  - intros files. split; reflexivity.
  - reflexivity.
Qed.

(* ================================================================== *)
(** * Further properties of the code *)

(* ------------------------------------------------------------------ *)
(** * The effects and the result of the search on one host *)

Lemma run_list_on_host_exec_raises w host search path_glob t e :
  connect w 0 host t = None ->
  exec_command w host (build_list_command search path_glob) t = Raise e ->
  run_list_on_host w host search path_glob t =
  ([EvConnect host t; EvExec host (build_list_command search path_glob) t;
    EvCloseClient host],
   Raise e).
Proof.
  intros Hc He.
  unfold run_list_on_host, try_except_return, connect_ssh, try_finally, swallow,
    client_close, lift, call, emit, bind, ret.
  rewrite Hc. cbn. rewrite He. cbn.
  destruct (close_client w host); reflexivity.
Qed.

Lemma run_list_on_host_connect_propagates w host search path_glob t e :
  connect w 0 host t = Some e ->
  is_ssh_or_socket_error e = false ->
  run_list_on_host w host search path_glob t = ([EvConnect host t], Raise e).
Proof.
  intros Hc He.
  unfold run_list_on_host, try_except_return, connect_ssh, call, emit, bind, ret, raise.
  rewrite Hc. cbn. rewrite He. reflexivity.
Qed.

(** X1. The search on a host first opens a session. Only if the session
    opened does it run the command, once, and it then closes the session
    exactly once, whether the command returned or raised and whether closing
    raised or not. When the session did not open, nothing is executed and
    nothing is closed. *)
Theorem search_effects_in_order w host search path_glob t :
  log_of (run_list_on_host w host search path_glob t) =
  match connect w 0 host t with
  | Some _ => [EvConnect host t]
  | None => [EvConnect host t;
             EvExec host (build_list_command search path_glob) t;
             EvCloseClient host]
  end.
Proof.
  destruct (connect w 0 host t) as [e|] eqn:Hc.
  - destruct (is_ssh_or_socket_error e) eqn:He.
    + rewrite (run_list_on_host_unreachable w host search path_glob t Hc He).
      reflexivity.
    + rewrite (run_list_on_host_connect_propagates w host search path_glob t Hc He).
      reflexivity.
  - destruct (exec_command w host (build_list_command search path_glob) t)
      as [[[out err] status]|e] eqn:He.
    + rewrite (run_list_on_host_connected w host search path_glob t Hc He).
      reflexivity.
    + rewrite (run_list_on_host_exec_raises w host search path_glob t Hc He).
      reflexivity.
Qed.

(** What the search on a host gives, from what the world answers. *)
Lemma run_list_on_host_outcome w host search path_glob t :
  outcome_of (run_list_on_host w host search path_glob t) =
  match connect w 0 host t with
  | Some e =>
      if is_ssh_or_socket_error e
      then Ok (hostname host, ssh_failure_code, [], "SSH/Network error: " ++ exn_msg e)
      else Raise e
  | None =>
      match exec_command w host (build_list_command search path_glob) t with
      | Ok (out, err, status) => Ok (hostname host, status, parse_paths out, err)
      | Raise e => Raise e
      end
  end.
Proof.
  destruct (connect w 0 host t) as [e|] eqn:Hc.
  - destruct (is_ssh_or_socket_error e) eqn:He.
    + rewrite (run_list_on_host_unreachable w host search path_glob t Hc He).
      reflexivity.
    + rewrite (run_list_on_host_connect_propagates w host search path_glob t Hc He).
      reflexivity.
  - destruct (exec_command w host (build_list_command search path_glob) t)
      as [[[out err] status]|e] eqn:He.
    + rewrite (run_list_on_host_connected w host search path_glob t Hc He).
      reflexivity.
    + rewrite (run_list_on_host_exec_raises w host search path_glob t Hc He).
      reflexivity.
Qed.

(** X2. Closing the session cannot change the result of a search: two worlds
    that answer [connect] and [exec_command] alike give the same result,
    whatever [client.close()] does in either. *)
Theorem close_failure_never_changes_search_result w w' host search path_glob t :
  connect w 0 host t = connect w' 0 host t ->
  exec_command w host (build_list_command search path_glob) t
  = exec_command w' host (build_list_command search path_glob) t ->
  outcome_of (run_list_on_host w host search path_glob t)
  = outcome_of (run_list_on_host w' host search path_glob t).
Proof.
  intros Hc He. rewrite !run_list_on_host_outcome, Hc, He. reflexivity.
Qed.

Lemma close_failure_never_changes_search_result_witness :
  outcome_of (run_list_on_host Examples.w_ok Examples.h1 "a.c" "/var/log/*" 120)
  = outcome_of (run_list_on_host MoreExamples.w_no_sftp Examples.h1 "a.c" "/var/log/*" 120).
Proof.
  apply (@close_failure_never_changes_search_result Examples.w_ok MoreExamples.w_no_sftp
           Examples.h1 "a.c" "/var/log/*" 120%Z); reflexivity.
Defined.

(** X3. When the session opens and the command then raises, the exception
    leaves [run_list_on_host] after the session is closed, and [main] records
    the host with exit code 255, no paths and a diagnostic that starts with
    Unhandled exception: the host counts as an error, and no retrieval is
    wanted for it. *)
Theorem exec_exception_recorded_as_255 w args host e :
  connect w 0 host (timeout args) = None ->
  exec_command w host (build_list_command (search args) (path args)) (timeout args)
    = Raise e ->
  run_list_on_host w host (search args) (path args) (timeout args)
    = ([EvConnect host (timeout args);
        EvExec host (build_list_command (search args) (path args)) (timeout args);
        EvCloseClient host], Raise e)
  /\ host_outcome w args host
     = (hostname host, 255%Z, [], "Unhandled exception: " ++ exn_msg e)
  /\ is_error_row (row_of w args host) = true
  /\ retrieval_of w args host = Ok [].
Proof.
  intros Hc He.
  pose proof (run_list_on_host_exec_raises w host (search args) (path args)
                (timeout args) Hc He) as Hrun.
  assert (Hout : host_outcome w args host
                 = (hostname host, 255%Z, [], "Unhandled exception: " ++ exn_msg e)).
  { unfold host_outcome, future_result. rewrite Hrun. reflexivity. }
  split; [exact Hrun|]. split; [exact Hout|].
  unfold row_of, retrieval_of. rewrite Hout.
  split; [reflexivity|].
  unfold wants_download. cbn. rewrite andb_false_r. reflexivity.
Qed.

Lemma exec_exception_recorded_as_255_witness :
  run_list_on_host MoreExamples.w_exec_fails Examples.h1
    (search Examples.args_download) (path Examples.args_download)
    (timeout Examples.args_download)
    = ([EvConnect Examples.h1 (timeout Examples.args_download);
        EvExec Examples.h1
          (build_list_command (search Examples.args_download)
             (path Examples.args_download))
          (timeout Examples.args_download);
        EvCloseClient Examples.h1],
       Raise (mkExn OtherException "Channel closed."))
  /\ host_outcome MoreExamples.w_exec_fails Examples.args_download Examples.h1
     = (hostname Examples.h1, 255%Z, [],
        "Unhandled exception: " ++ exn_msg (mkExn OtherException "Channel closed."))
  /\ is_error_row (row_of MoreExamples.w_exec_fails Examples.args_download Examples.h1)
     = true
  /\ retrieval_of MoreExamples.w_exec_fails Examples.args_download Examples.h1 = Ok [].
Proof.
  apply (@exec_exception_recorded_as_255 MoreExamples.w_exec_fails
           Examples.args_download Examples.h1
           (mkExn OtherException "Channel closed.")); reflexivity.
Defined.

(* ------------------------------------------------------------------ *)
(** * The parsing of the matched paths *)

Lemma lstrip_by_starts_outside p s : starts_outside p (PyStr.lstrip_by p s).
Proof.
  induction s as [|c s IH]; simpl; [exact I|].
  destruct (p c) eqn:E; [exact IH | simpl; exact E].
Qed.

Lemma lstrip_by_fixed p s : starts_outside p s -> PyStr.lstrip_by p s = s.
Proof.
  destruct s as [|c s]; simpl; [reflexivity|]. intros ->. reflexivity.
Qed.

Lemma rstrip_by_starts_outside p s :
  starts_outside p s -> starts_outside p (PyStr.rstrip_by p s).
Proof.
  destruct s as [|c s]; simpl; [trivial|]. intros Hc.
  destruct (PyStr.rstrip_by p s); [rewrite Hc|]; simpl; exact Hc.
Qed.

Lemma rstrip_by_idempotent p s :
  PyStr.rstrip_by p (PyStr.rstrip_by p s) = PyStr.rstrip_by p s.
Proof.
  induction s as [|c s IH]; simpl; [reflexivity|].
  destruct (PyStr.rstrip_by p s) as [|d r] eqn:E.
  - destruct (p c) eqn:Ec; simpl; [reflexivity|]. rewrite Ec. reflexivity.
  - cbn [PyStr.rstrip_by]. cbn [PyStr.rstrip_by] in IH. rewrite IH. reflexivity.
Qed.

Lemma strip_idempotent s : PyStr.strip (PyStr.strip s) = PyStr.strip s.
Proof.
  unfold PyStr.strip.
  rewrite (lstrip_by_fixed PyStr.isspace
             (PyStr.rstrip_by PyStr.isspace (PyStr.lstrip_by PyStr.isspace s))).
  - apply rstrip_by_idempotent.
  - apply rstrip_by_starts_outside, lstrip_by_starts_outside.
Qed.

(** X4. Every path that the parsing of the output returns is not empty and
    has no white space at either end: stripping it again changes nothing. *)
Theorem parsed_paths_are_stripped_and_not_empty out p :
  In p (parse_paths out) -> p <> EmptyString /\ PyStr.strip p = p.
Proof.
  unfold parse_paths. intros Hin.
  apply in_map_iff in Hin as (line & <- & Hline).
  apply filter_In in Hline as [_ Ht].
  split; [|apply strip_idempotent].
  destruct (PyStr.strip line); [discriminate Ht | discriminate].
Qed.

Lemma parsed_paths_are_stripped_and_not_empty_witness :
  "/a/c" <> EmptyString /\ PyStr.strip "/a/c" = "/a/c".
Proof.
  apply (@parsed_paths_are_stripped_and_not_empty
           ("/a/b" ++ nl ++ " /a/c " ++ nl) "/a/c").
  right. left. reflexivity.
Defined.

Lemma rev_string_acc acc s :
  PyStr.rev_string acc s = PyStr.rev_string EmptyString s ++ acc.
Proof.
  revert acc. induction s as [|c s IH]; intros acc; simpl; [reflexivity|].
  rewrite (IH (String c acc)), (IH (String c EmptyString)), append_assoc.
  reflexivity.
Qed.

Lemma rev_string_push cur p :
  PyStr.rev_string EmptyString (PyStr.rev_string cur p)
  = PyStr.rev_string EmptyString cur ++ p.
Proof.
  revert cur. induction p as [|c p IH]; intros cur; simpl.
  - rewrite append_nil_r. reflexivity.
  - rewrite IH. simpl. rewrite (rev_string_acc (String c EmptyString) cur), append_assoc.
    reflexivity.
Qed.

Lemma splitlines_aux_line p rest : forall cur started,
  has_no_break p = true ->
  PyStr.splitlines_aux cur started (p ++ nl ++ rest)
  = (PyStr.rev_string EmptyString cur ++ p)
      :: PyStr.splitlines_aux EmptyString false rest.
Proof.
  induction p as [|c p IH]; intros cur started Hp.
  - rewrite append_nil_r. destruct rest; reflexivity.
  - cbn [has_no_break] in Hp. apply andb_true_iff in Hp as [Hc Hp].
    apply negb_true_iff in Hc.
    cbn [append PyStr.splitlines_aux]. rewrite Hc.
    rewrite (IH (String c cur) true Hp). cbn [PyStr.rev_string].
    rewrite (rev_string_acc (String c EmptyString) cur), append_assoc. reflexivity.
Qed.

Lemma splitlines_unlines paths :
  Forall (fun p => has_no_break p = true) paths ->
  PyStr.splitlines (unlines paths) = paths.
Proof.
  unfold PyStr.splitlines.
  induction 1 as [|p rest Hp _ IH]; [reflexivity|].
  cbn [unlines]. rewrite (splitlines_aux_line p (unlines rest) EmptyString false Hp).
  rewrite IH. reflexivity.
Qed.

(** X5. Round trip of the output format. When the command prints clean
    paths, one per line, the parsing returns exactly these paths, in
    order. *)
Theorem parse_paths_of_printed_paths paths :
  Forall clean_path paths -> parse_paths (unlines paths) = paths.
Proof.
  intros Hclean. unfold parse_paths.
  rewrite splitlines_unlines.
  - induction Hclean as [|p rest (Hne & _ & Hs) _ IH]; [reflexivity|].
    cbn [filter]. rewrite Hs.
    destruct p as [|c p]; [contradiction|].
    cbn [PyStr.truthy map]. rewrite Hs, IH. reflexivity.
  - eapply Forall_impl; [|exact Hclean]. intros p (_ & Hb & _). exact Hb.
Qed.

Lemma parse_paths_of_printed_paths_witness :
  parse_paths (unlines ["/a/b"; "/var/log/my file.txt"]) = ["/a/b"; "/var/log/my file.txt"].
Proof.
  apply (@parse_paths_of_printed_paths ["/a/b"; "/var/log/my file.txt"]).
  repeat constructor; discriminate.
Defined.

(* ------------------------------------------------------------------ *)
(** * Where a downloaded file is written *)

Lemma lstrip_slash_no_leading_slash r :
  PyStr.startswith_slash (PyStr.lstrip_slash r) = false.
Proof.
  unfold PyStr.lstrip_slash.
  pose proof (lstrip_by_starts_outside (fun c => Ascii.eqb c "/") r) as H.
  destruct (PyStr.lstrip_by (fun c => Ascii.eqb c "/") r); [reflexivity | exact H].
Qed.

Lemma truthy_append a b : PyStr.truthy (a ++ b) = PyStr.truthy a || PyStr.truthy b.
Proof. destruct a; simpl; [destruct b|]; reflexivity. Qed.

Lemma endswith_slash_append a b :
  PyStr.truthy b = true ->
  PyStr.endswith_slash (a ++ b) = PyStr.endswith_slash b.
Proof.
  intros Hb. induction a as [|c a IH]; [reflexivity|].
  cbn [append]. cbn [PyStr.endswith_slash].
  destruct (a ++ b) eqn:E; [|exact IH].
  destruct a; [|discriminate E]. simpl in E. subst b. discriminate Hb.
Qed.

Lemma local_path_of_plain dest_root host rpath :
  open_root dest_root = true ->
  plain_name (hostname host) = true ->
  local_path_of dest_root host rpath
  = dest_root ++ "/" ++ hostname host ++ "/" ++ PyStr.lstrip_slash rpath.
Proof.
  unfold open_root, plain_name. intros Hd Hn.
  apply andb_true_iff in Hd as [Hd1 Hd2]. apply negb_true_iff in Hd2.
  apply andb_true_iff in Hn as [Hn Hn3]. apply andb_true_iff in Hn as [Hn1 Hn2].
  apply negb_true_iff in Hn2. apply negb_true_iff in Hn3.
  unfold local_path_of, OsPath.join. cbn [fold_left].
  assert (Hbase : OsPath.join2 dest_root (hostname host)
                  = dest_root ++ "/" ++ hostname host).
  { unfold OsPath.join2. rewrite Hn2, Hd1, Hd2. reflexivity. }
  rewrite Hbase. unfold OsPath.join2.
  rewrite lstrip_slash_no_leading_slash.
  rewrite truthy_append, Hd1.
  rewrite (endswith_slash_append dest_root ("/" ++ hostname host)) by reflexivity.
  rewrite (endswith_slash_append "/" (hostname host) Hn1), Hn3.
  cbn [negb orb]. rewrite !append_assoc. reflexivity.
Qed.

(** X6. For a destination root that is not empty and does not end with a
    slash, and a host name that is not empty and neither starts nor ends
    with a slash, the local path of a remote path is the root, the host
    name and the remote path without its leading slashes, joined by single
    slashes: an absolute remote path never replaces the destination. *)
Theorem local_path_under_root_and_host dest_root host rpath :
  open_root dest_root = true ->
  plain_name (hostname host) = true ->
  local_path_of dest_root host rpath
  = dest_root ++ "/" ++ hostname host ++ "/" ++ PyStr.lstrip_slash rpath
  /\ PyStr.startswith_slash (PyStr.lstrip_slash rpath) = false.
Proof.
  intros Hd Hn. split.
  - apply local_path_of_plain; assumption.
  - apply lstrip_slash_no_leading_slash.
Qed.

Lemma local_path_under_root_and_host_witness :
  local_path_of "out" Examples.h1 "//var/log/x.txt"
  = "out" ++ "/" ++ hostname Examples.h1 ++ "/" ++ PyStr.lstrip_slash "//var/log/x.txt"
  /\ PyStr.startswith_slash (PyStr.lstrip_slash "//var/log/x.txt") = false.
Proof.
  apply (@local_path_under_root_and_host "out" Examples.h1 "//var/log/x.txt");
    reflexivity.
Defined.

Lemma append_cancel_l (a b c : string) : a ++ b = a ++ c -> b = c.
Proof.
  induction a as [|x a IH]; simpl; intros H; [exact H|].
  injection H as H. exact (IH H).
Qed.

Lemma slash_free_plain name :
  PyStr.truthy name = true -> slash_free name = true -> plain_name name = true.
Proof.
  intros Ht Hs. unfold plain_name. rewrite Ht.
  assert (Hstart : PyStr.startswith_slash name = false).
  { destruct name as [|c name]; [reflexivity|]. simpl in *.
    apply andb_true_iff in Hs as [Hc _]. apply negb_true_iff in Hc. exact Hc. }
  assert (Hend : PyStr.endswith_slash name = false).
  { clear Ht Hstart. induction name as [|c name IH]; [reflexivity|].
    cbn [slash_free] in Hs. apply andb_true_iff in Hs as [Hc Hs].
    apply negb_true_iff in Hc. cbn [PyStr.endswith_slash].
    destruct name; [exact Hc | exact (IH Hs)]. }
  rewrite Hstart, Hend. reflexivity.
Qed.

(** Two strings that agree after a slash-free part and a slash agree on that
    part and on what follows. *)
Lemma split_at_first_slash a b x y :
  slash_free a = true -> slash_free b = true ->
  a ++ "/" ++ x = b ++ "/" ++ y -> a = b /\ x = y.
Proof.
  revert b. induction a as [|c a IH]; intros b Ha Hb H.
  - destruct b as [|d b]; simpl in H.
    + injection H as H. split; [reflexivity | exact H].
    + injection H as Hd _. subst d. simpl in Hb. discriminate Hb.
  - destruct b as [|d b]; simpl in H.
    + injection H as Hc _. subst c. simpl in Ha. discriminate Ha.
    + injection H as Hcd H. subst d.
      cbn [slash_free] in Ha, Hb.
      apply andb_true_iff in Ha as [_ Ha]. apply andb_true_iff in Hb as [_ Hb].
      destruct (IH b Ha Hb H) as [-> ->]. split; reflexivity.
Qed.

(** X7. Under one destination root, files of hosts whose names are not empty
    and hold no slash never share a local path unless the host names are
    equal and the remote paths agree up to leading slashes. *)
Theorem local_paths_of_hosts_do_not_collide dest_root host1 host2 rpath1 rpath2 :
  open_root dest_root = true ->
  PyStr.truthy (hostname host1) = true -> slash_free (hostname host1) = true ->
  PyStr.truthy (hostname host2) = true -> slash_free (hostname host2) = true ->
  local_path_of dest_root host1 rpath1 = local_path_of dest_root host2 rpath2 ->
  hostname host1 = hostname host2
  /\ PyStr.lstrip_slash rpath1 = PyStr.lstrip_slash rpath2.
Proof.
  intros Hd Ht1 Hs1 Ht2 Hs2 Heq.
  rewrite (local_path_of_plain dest_root host1 rpath1 Hd (slash_free_plain _ Ht1 Hs1)),
    (local_path_of_plain dest_root host2 rpath2 Hd (slash_free_plain _ Ht2 Hs2)) in Heq.
  apply append_cancel_l in Heq. simpl in Heq. injection Heq as Heq.
  exact (split_at_first_slash _ _ _ _ Hs1 Hs2 Heq).
Qed.

Lemma local_paths_of_hosts_do_not_collide_witness :
  hostname Examples.h1 = hostname Examples.h1
  /\ PyStr.lstrip_slash "/a/b" = PyStr.lstrip_slash "//a/b".
Proof.
  apply (@local_paths_of_hosts_do_not_collide "out" Examples.h1 Examples.h1
           "/a/b" "//a/b"); reflexivity.
Defined.

(* ------------------------------------------------------------------ *)
(** * The retrieval when its session fails, and what it closes *)

Lemma download_loop_log w host dest_root paths : forall acc,
  log_all is_transfer_event (download_loop w host dest_root paths acc).
Proof.
  induction paths as [|p rest IH]; intros acc; cbn [download_loop].
  - apply log_all_ret.
  - apply log_all_bind; [apply log_all_emit; reflexivity | intros _].
    apply log_all_bind; [apply log_all_call | intros _].
    apply log_all_bind; [apply log_all_emit; reflexivity | intros _].
    apply log_all_bind; [|intros acc'; apply IH].
    destruct (sftp_get w host p (local_path_of dest_root host p)) as [e|];
      [|apply log_all_ret].
    apply log_all_bind; [|intros _; apply log_all_ret].
    destruct (exn_kind e); apply log_all_emit; reflexivity.
Qed.

Lemma download_loop_outcome w host dest_root paths : forall acc dl,
  outcome_of (download_loop w host dest_root paths acc) = Ok dl ->
  dl = (acc ++ fetched w host dest_root paths)%list.
Proof.
  unfold fetched.
  induction paths as [|p rest IH]; intros acc dl.
  - cbn. intros H. injection H as <-. rewrite app_nil_r. reflexivity.
  - cbn [download_loop filter map]. unfold get_succeeds at 1.
    destruct (makedirs w (OsPath.dirname (local_path_of dest_root host p))) as [e|];
      [cbn; discriminate|].
    destruct (sftp_get w host p (local_path_of dest_root host p)) as [e|].
    + destruct (download_loop w host dest_root rest acc) as [l r] eqn:E.
      specialize (IH acc dl). rewrite E in IH.
      unfold bind at 1 2 3 4. unfold emit, call, ret, eprint.
      destruct (exn_kind e); cbn; rewrite E; cbn; exact IH.
    + destruct (download_loop w host dest_root rest
                  (acc ++ [(p, local_path_of dest_root host p)])%list) as [l r] eqn:E.
      specialize (IH (acc ++ [(p, local_path_of dest_root host p)])%list dl).
      rewrite E in IH.
      unfold bind at 1 2 3 4. unfold emit, call, ret.
      cbn. rewrite E. cbn. intros H. rewrite (IH H), <- app_assoc. reflexivity.
Qed.

(** What [sftp_download_files] does, case by case. *)
Lemma sftp_download_files_cases w host paths dest_root t :
  sftp_download_files w host paths dest_root t =
  match connect w 1 host t with
  | Some e =>
      if is_ssh_or_socket_error e
      then ([EvConnect host t;
             EvStderr ("[ERROR] " ++ hostname host ++ ": SFTP connect failed: "
                         ++ exn_msg e)], Ok [])
      else ([EvConnect host t], Raise e)
  | None =>
      match open_sftp w host with
      | Some e =>
          if is_ssh_or_socket_error e
          then ([EvConnect host t; EvOpenSftp host;
                 EvStderr ("[ERROR] " ++ hostname host ++ ": SFTP connect failed: "
                             ++ exn_msg e)], Ok [])
          else ([EvConnect host t; EvOpenSftp host], Raise e)
      | None =>
          (EvConnect host t :: EvOpenSftp host
             :: (log_of (download_loop w host dest_root paths [])
                 ++ [EvCloseSftp host; EvCloseClient host])%list,
           outcome_of (download_loop w host dest_root paths []))
      end
  end.
Proof.
  unfold sftp_download_files, try_except_return, connect_ssh, try_finally, swallow,
    sftp_close, client_close, call, emit, eprint, bind, ret, raise.
  destruct (connect w 1 host t) as [e|]; cbn.
  - destruct (is_ssh_or_socket_error e); reflexivity.
  - destruct (open_sftp w host) as [e|]; cbn.
    + destruct (is_ssh_or_socket_error e); reflexivity.
    + destruct (download_loop w host dest_root paths []) as [l r]. cbn.
      destruct (close_sftp w host), (close_client w host); reflexivity.
Qed.

(** X8. When the retrieval session cannot be opened because of an
    authentication, SSH or socket error, of the connection or of the SFTP
    channel, [sftp_download_files] returns the empty list: it writes one
    line to standard error, creates no directory and attempts no file. *)
Theorem retrieval_without_session_returns_nothing w host paths dest_root t e :
  sftp_session_error w host t = Some e ->
  is_ssh_or_socket_error e = true ->
  outcome_of (sftp_download_files w host paths dest_root t) = Ok []
  /\ In (EvStderr ("[ERROR] " ++ hostname host ++ ": SFTP connect failed: "
                     ++ exn_msg e))
        (log_of (sftp_download_files w host paths dest_root t))
  /\ count_events is_stderr (log_of (sftp_download_files w host paths dest_root t))
     = 1%nat
  /\ count_events is_makedirs (log_of (sftp_download_files w host paths dest_root t))
     = 0%nat
  /\ count_events is_get (log_of (sftp_download_files w host paths dest_root t))
     = 0%nat.
Proof.
  unfold sftp_session_error. intros Hs He.
  rewrite sftp_download_files_cases.
  destruct (connect w 1 host t) as [e1|].
  - injection Hs as ->. rewrite He. cbn. repeat split. right. left. reflexivity.
  - rewrite Hs, He. cbn. repeat split. right. right. left. reflexivity.
Qed.

Lemma retrieval_without_session_returns_nothing_witness :
  outcome_of (sftp_download_files MoreExamples.w_no_sftp Examples.h1
                ["/a/b"; "/a/c"] "out" 120) = Ok []
  /\ In (EvStderr ("[ERROR] " ++ hostname Examples.h1 ++ ": SFTP connect failed: "
                     ++ exn_msg (mkExn SSHException "Channel closed.")))
        (log_of (sftp_download_files MoreExamples.w_no_sftp Examples.h1
                   ["/a/b"; "/a/c"] "out" 120))
  /\ count_events is_stderr
       (log_of (sftp_download_files MoreExamples.w_no_sftp Examples.h1
                  ["/a/b"; "/a/c"] "out" 120)) = 1%nat
  /\ count_events is_makedirs
       (log_of (sftp_download_files MoreExamples.w_no_sftp Examples.h1
                  ["/a/b"; "/a/c"] "out" 120)) = 0%nat
  /\ count_events is_get
       (log_of (sftp_download_files MoreExamples.w_no_sftp Examples.h1
                  ["/a/b"; "/a/c"] "out" 120)) = 0%nat.
Proof.
  apply (@retrieval_without_session_returns_nothing MoreExamples.w_no_sftp Examples.h1
           ["/a/b"; "/a/c"] "out" 120%Z (mkExn SSHException "Channel closed."));
    reflexivity.
Defined.

(** X9. Once the retrieval session is open, [sftp_download_files] closes the
    SFTP channel and then the connection, each exactly once and as its last
    two effects, whether the loop over the paths returned or raised and
    whether closing raised or not. *)
Theorem retrieval_closes_channel_and_connection w host paths dest_root t :
  connect w 1 host t = None ->
  open_sftp w host = None ->
  (exists before,
     log_of (sftp_download_files w host paths dest_root t)
     = (before ++ [EvCloseSftp host; EvCloseClient host])%list)
  /\ count_events is_close_sftp (log_of (sftp_download_files w host paths dest_root t))
     = 1%nat
  /\ count_events is_close_client (log_of (sftp_download_files w host paths dest_root t))
     = 1%nat
  /\ outcome_of (sftp_download_files w host paths dest_root t)
     = outcome_of (download_loop w host dest_root paths []).
Proof.
  intros Hc Ho. rewrite sftp_download_files_cases, Hc, Ho. cbn [log_of outcome_of fst snd].
  pose proof (download_loop_log w host dest_root paths []) as Hlog.
  assert (Hs : count_events is_close_sftp
                 (log_of (download_loop w host dest_root paths [])) = 0%nat).
  { apply (log_all_count_zero is_close_sftp Hlog). intros [] H; try discriminate H; reflexivity. }
  assert (Hcl : count_events is_close_client
                  (log_of (download_loop w host dest_root paths [])) = 0%nat).
  { apply (log_all_count_zero is_close_client Hlog). intros [] H; try discriminate H; reflexivity. }
  split; [|split; [|split]].
  - exists (EvConnect host t :: EvOpenSftp host
              :: log_of (download_loop w host dest_root paths [])).
    reflexivity.
  - change (count_events is_close_sftp
              ([EvConnect host t; EvOpenSftp host]
               ++ log_of (download_loop w host dest_root paths [])
               ++ [EvCloseSftp host; EvCloseClient host]) = 1%nat).
    rewrite !count_events_app, Hs. reflexivity.
  - change (count_events is_close_client
              ([EvConnect host t; EvOpenSftp host]
               ++ log_of (download_loop w host dest_root paths [])
               ++ [EvCloseSftp host; EvCloseClient host]) = 1%nat).
    rewrite !count_events_app, Hcl. reflexivity.
  - reflexivity.
Qed.

Lemma retrieval_closes_channel_and_connection_witness :
  (exists before,
     log_of (sftp_download_files Examples.w_readonly Examples.h1
               ["/a/b"; "/c/d"] "out" 120)
     = (before ++ [EvCloseSftp Examples.h1; EvCloseClient Examples.h1])%list)
  /\ count_events is_close_sftp
       (log_of (sftp_download_files Examples.w_readonly Examples.h1
                  ["/a/b"; "/c/d"] "out" 120)) = 1%nat
  /\ count_events is_close_client
       (log_of (sftp_download_files Examples.w_readonly Examples.h1
                  ["/a/b"; "/c/d"] "out" 120)) = 1%nat
  /\ outcome_of (sftp_download_files Examples.w_readonly Examples.h1
                   ["/a/b"; "/c/d"] "out" 120)
     = outcome_of (download_loop Examples.w_readonly Examples.h1 "out"
                     ["/a/b"; "/c/d"] []).
Proof.
  apply (@retrieval_closes_channel_and_connection Examples.w_readonly Examples.h1
           ["/a/b"; "/c/d"] "out" 120%Z); reflexivity.
Defined.

Lemma fetched_length w host dest_root paths :
  (List.length (fetched w host dest_root paths) <= List.length paths)%nat.
Proof.
  unfold fetched. rewrite length_map. apply filter_length_le.
Qed.

Lemma fetched_in w host dest_root paths r l :
  In (r, l) (fetched w host dest_root paths) ->
  In r paths /\ l = local_path_of dest_root host r /\ sftp_get w host r l = None.
Proof.
  unfold fetched. intros Hin.
  apply in_map_iff in Hin as (p & Heq & Hp). injection Heq as <- <-.
  apply filter_In in Hp as [Hp Hg].
  split; [exact Hp|]. split; [reflexivity|].
  unfold get_succeeds in Hg.
  destruct (sftp_get w host p (local_path_of dest_root host p)); [discriminate | reflexivity].
Qed.

Lemma sftp_download_files_returns w host paths dest_root t dl :
  outcome_of (sftp_download_files w host paths dest_root t) = Ok dl ->
  dl = [] \/ dl = fetched w host dest_root paths.
Proof.
  rewrite sftp_download_files_cases.
  destruct (connect w 1 host t) as [e|].
  - destruct (is_ssh_or_socket_error e); cbn; intros H; [|discriminate].
    injection H as <-. left. reflexivity.
  - destruct (open_sftp w host) as [e|].
    + destruct (is_ssh_or_socket_error e); cbn; intros H; [|discriminate].
      injection H as <-. left. reflexivity.
    + cbn [outcome_of snd]. intros H. right.
      apply (download_loop_outcome w host dest_root paths [] H).
Qed.

(** X10. Whatever [sftp_download_files] returns was fetched: every pair of
    the result is a path of the request with its local path, the transfer of
    that path succeeded, and the result is no longer than the request. *)
Theorem returned_transfers_were_fetched w host paths dest_root t dl :
  outcome_of (sftp_download_files w host paths dest_root t) = Ok dl ->
  (forall r l, In (r, l) dl ->
     In r paths /\ l = local_path_of dest_root host r /\ sftp_get w host r l = None)
  /\ (List.length dl <= List.length paths)%nat.
Proof.
  intros H. destruct (sftp_download_files_returns w host paths dest_root t H) as [->| ->].
  - split; [intros r l []|]. apply Nat.le_0_l.
  - split; [intros r l; apply fetched_in | apply fetched_length].
Qed.

Lemma returned_transfers_were_fetched_witness :
  (forall r l, In (r, l) [("/a/b", "out/h1/a/b")] ->
     In r ["/a/b"; "/a/c"] /\ l = local_path_of "out" Examples.h1 r
     /\ sftp_get Examples.w_ok Examples.h1 r l = None)
  /\ (List.length [("/a/b", "out/h1/a/b")] <= List.length ["/a/b"; "/a/c"])%nat.
Proof.
  apply (@returned_transfers_were_fetched Examples.w_ok Examples.h1
           ["/a/b"; "/a/c"] "out" 120%Z [("/a/b", "out/h1/a/b")]).
  reflexivity.
Defined.

(* ------------------------------------------------------------------ *)
(** * What [main] returns and what it touches *)

(** X11. Whenever [main] returns, it returns 0, 1 or 2, and it returns 2
    exactly when an exception was raised inside its [try]: when the hosts
    could not be loaded, or when printing the loaded hosts raised. *)
Theorem main_returns_2_iff_startup_fails w args rc :
  outcome_of (main w args) = Ok rc ->
  (rc = 0 \/ rc = 1 \/ rc = 2)%Z
  /\ (rc = 2%Z <-> startup_error w args <> None).
Proof.
  rewrite main_outcome. unfold startup_error.
  destruct (outcome_of (load_hosts w (config args))) as [hosts|e].
  - destruct (write_hosts w hosts) as [e|].
    + intros H. injection H as <-. split; [auto|]. split; [discriminate | reflexivity].
    + destruct (outcome_of (run_hosts w args hosts)) as [[rs ds]|e]; [|discriminate].
      destruct (outcome_of (print_summary w args (summarize rs ds))); [|discriminate].
      intros H. injection H as <-.
      destruct (exit_signal_0_or_1 rs) as [-> | ->];
        (split; [auto|]); (split; [discriminate | intros H; now elim H]).
  - intros H. injection H as <-. split; [auto|]. split; [discriminate | reflexivity].
Qed.

Lemma main_returns_2_iff_startup_fails_witness :
  (2 = 0 \/ 2 = 1 \/ 2 = 2)%Z
  /\ (2%Z = 2%Z <->
      startup_error MoreExamples.w_hosts_unprintable Examples.args_download <> None).
Proof.
  apply (@main_returns_2_iff_startup_fails MoreExamples.w_hosts_unprintable
           Examples.args_download 2%Z).
  reflexivity.
Defined.

(** X12. When the configuration cannot be loaded, [main] writes one line to
    standard error, the word FATAL with the message of the failure, and
    returns 2: no pool is started, no host is contacted and nothing is
    printed to standard output. An empty list of hosts is such a failure. *)
Theorem config_failure_is_fatal w args msg :
  config_error w (config args) = Some msg ->
  main w args = ([EvStderr ("[FATAL] Could not load config: " ++ msg)], Ok 2%Z).
Proof.
  unfold config_error, main, load_hosts, try_except_return, lift, bind, eprint, emit,
    ret, raise.
  destruct (read_config w (config args)) as [[|x entries]|e]; intros H;
    [injection H as <- | discriminate | injection H as <-]; reflexivity.
Qed.

Lemma config_failure_is_fatal_witness :
  main MoreExamples.w_empty_config Examples.args_download
  = ([EvStderr ("[FATAL] Could not load config: " ++ "No hosts found in config.")],
     Ok 2%Z).
Proof.
  apply (@config_failure_is_fatal MoreExamples.w_empty_config Examples.args_download
           "No hosts found in config.").
  reflexivity.
Defined.

Lemma log_all_weaken {A} (P Q : event -> bool) (m : M A) :
  (forall ev, P ev = true -> Q ev = true) -> log_all P m -> log_all Q m.
Proof.
  unfold log_all. intros HPQ.
  induction (log_of m) as [|ev l IH]; [reflexivity|].
  simpl. intros H. apply andb_true_iff in H as [Hev Hl].
  rewrite (HPQ ev Hev), (IH Hl). reflexivity.
Qed.





(* ------------------------------------------------------------------ *)
(** * The counts of the summary *)

(** X14. The three counts of the summary cover every host, and overlap only
    on the hosts that have an error code and no path: matched, no match and
    errors add up to the number of hosts plus the number of these hosts. A
    matched host is never counted as no match nor as an error. *)
Theorem summary_counts_cover_hosts_with_overlap results :
  (matched_hosts results + no_match_hosts results + error_hosts results
   = total_hosts results + sum_ones is_error_without_paths results)%nat
  /\ (matched_hosts results + no_match_hosts results <= total_hosts results)%nat
  /\ (matched_hosts results + error_hosts results <= total_hosts results)%nat.
Proof.
  unfold matched_hosts, no_match_hosts, error_hosts, total_hosts.
  induction results as [|r rs (IH1 & IH2 & IH3)];
    [repeat split; apply Nat.le_0_l|].
  rewrite !sum_ones_cons. cbn [List.length].
  set (m := sum_ones is_matched_row rs) in *.
  set (n := sum_ones is_no_match_row rs) in *.
  set (e := sum_ones is_error_row rs) in *.
  set (o := sum_ones is_error_without_paths rs) in *.
  clearbody m n e o.
  unfold is_error_without_paths, is_matched_row, is_no_match_row, is_error_row.
  destruct (row_code r =? 0)%Z eqn:E0.
  - apply Z.eqb_eq in E0.
    assert (E1 : (row_code r =? 1)%Z = false) by (apply Z.eqb_neq; lia).
    rewrite E1. destruct (row_count r) as [|k];
      cbn [negb orb andb Nat.ltb Nat.leb Nat.eqb]; repeat split; lia.
  - destruct (row_code r =? 1)%Z, (row_count r) as [|k];
      cbn [negb orb andb Nat.ltb Nat.leb Nat.eqb]; repeat split; lia.
Qed.

(* ------------------------------------------------------------------ *)
(** * Downloads, rows and the exit code of a run *)

Lemma sftp_download_files_length w host paths dest_root t dl :
  outcome_of (sftp_download_files w host paths dest_root t) = Ok dl ->
  (List.length dl <= List.length paths)%nat.
Proof.
  intros H. destruct (sftp_download_files_returns w host paths dest_root t H) as [->| ->].
  - apply Nat.le_0_l.
  - apply fetched_length.
Qed.

(** The rows one host may add to [downloads_summary] are at most the paths of
    its row, and none unless its row counts as matched. *)
Lemma retrieval_of_length w args host d :
  retrieval_of w args host = Ok d ->
  (List.length d
   <= if is_matched_row (row_of w args host) then row_count (row_of w args host) else 0)%nat.
Proof.
  unfold retrieval_of, row_of.
  destruct (host_outcome w args host) as [[[name code] paths] err].
  unfold wants_download, is_matched_row, row_code, row_count. cbn [fst snd].
  destruct (download args =? 1)%Z; cbn [andb];
    [|intros H; injection H as <-; apply Nat.le_0_l].
  destruct (code =? 0)%Z; cbn [andb];
    [|intros H; injection H as <-; apply Nat.le_0_l].
  destruct paths as [|p paths]; [intros H; injection H as <-; apply Nat.le_0_l|].
  cbn [Nat.ltb Nat.leb List.length].
  destruct (outcome_of (sftp_download_files w host (p :: paths) (dest args) (timeout args)))
    as [dl|e] eqn:E; [|discriminate].
  intros H. injection H as <-. rewrite length_map.
  apply (sftp_download_files_length w host (p :: paths) (dest args) (timeout args) E).
Qed.

Lemma iterations_length w args order : forall d,
  iterations w args order = Ok d ->
  (List.length d
   <= list_sum (map row_count (filter is_matched_row (map (row_of w args) order))))%nat.
Proof.
  induction order as [|host rest IH]; intros d; cbn [iterations map filter].
  - intros H. injection H as <-. apply Nat.le_0_l.
  - destruct (iteration_of w args host) as [d1|e] eqn:E1; [|discriminate].
    destruct (iterations w args rest) as [d2|e]; [|discriminate].
    intros H. injection H as <-. rewrite length_app.
    pose proof (retrieval_of_length w args host (iteration_of_retrieval w args host E1))
      as H1.
    pose proof (IH d2 eq_refl) as H2.
    destruct (is_matched_row (row_of w args host)); cbn [map list_sum fold_right];
      fold (list_sum (map row_count (filter is_matched_row (map (row_of w args) rest))));
      lia.
Qed.

(** X15. When the loop completes, the number of files recorded as downloaded
    is at most the number of paths of the hosts counted as matched; without
    [--download 1] nothing is recorded as downloaded. *)
Theorem downloads_bounded_by_matched_paths w args hosts rs ds :
  outcome_of (run_hosts w args hosts) = Ok (rs, ds) ->
  (List.length ds <= list_sum (map row_count (filter is_matched_row rs)))%nat
  /\ (download args <> 1%Z -> ds = []).
Proof.
  rewrite run_hosts_outcome.
  destruct (iterations w args (as_completed w hosts)) as [d|e] eqn:E; [|discriminate].
  intros H. injection H as <- <-. split.
  - apply iterations_length, E.
  - intros Hd. exact (iterations_nil_without_download w args _ Hd E).
Qed.

Lemma downloads_bounded_by_matched_paths_witness :
  (List.length [("h1", "/a/b", "out/h1/a/b")]
   <= list_sum (map row_count
                  (filter is_matched_row
                     [("h3", 1%Z, 1%nat); ("h2", 255%Z, 0%nat); ("h1", 0%Z, 2%nat)])))%nat
  /\ (download Examples.args_download <> 1%Z -> [("h1", "/a/b", "out/h1/a/b")] = []).
Proof.
  apply (@downloads_bounded_by_matched_paths Examples.w_ok Examples.args_download
           [Examples.h1; Examples.h2; Examples.h3]).
  reflexivity.
Defined.




Lemma row_of_same_searches w w' args host :
  same_searches w w' -> row_of w args host = row_of w' args host.
Proof.
  intros [Hc He]. unfold row_of, host_outcome, future_result.
  rewrite !run_list_on_host_outcome, Hc, He. reflexivity.
Qed.

(** X17. Past the printing of the hosts, the exit code depends on the
    searches alone. Two runs over the same configuration whose searches are
    answered alike, and in which printing the list of hosts is answered
    alike, return the same code whenever both return, whatever their
    retrievals do and in whatever order their hosts complete. *)
Theorem exit_code_depends_on_searches_only w w' args rc rc' :
  completes_each_once w -> completes_each_once w' ->
  read_config w (config args) = read_config w' (config args) ->
  (forall hosts, write_hosts w hosts = write_hosts w' hosts) ->
  same_searches w w' ->
  outcome_of (main w args) = Ok rc ->
  outcome_of (main w' args) = Ok rc' ->
  rc = rc'.
Proof.
  intros Hp Hp' Hcfg Hwr Hsame.
  rewrite !main_outcome, !load_hosts_outcome, <- Hcfg.
  destruct (read_config w (config args)) as [[|x entries]|e];
    [congruence| |congruence].
  set (hosts := map host_of_entry (x :: entries)).
  rewrite <- (Hwr hosts).
  destruct (write_hosts w hosts); [congruence|].
  rewrite !run_hosts_outcome.
  destruct (iterations w args (as_completed w hosts)); [|discriminate].
  destruct (iterations w' args (as_completed w' hosts)); [|discriminate].
  destruct (outcome_of (print_summary w args _)); [|discriminate].
  destruct (outcome_of (print_summary w' args _)); [|discriminate].
  intros H H'. injection H as <-. injection H' as <-.
  rewrite (exit_signal_perm (Permutation_map (row_of w args)
                               (Permutation_sym (Hp hosts)))).
  rewrite (exit_signal_perm (Permutation_map (row_of w' args)
                               (Permutation_sym (Hp' hosts)))).
  f_equal. apply map_ext. intros h. apply row_of_same_searches, Hsame.
Qed.

Lemma exit_code_depends_on_searches_only_witness : 1%Z = 1%Z.
Proof.
  apply (@exit_code_depends_on_searches_only Examples.w_ok MoreExamples.w_no_sftp
           Examples.args_download 1%Z 1%Z).
  - intros hs. apply Permutation_rev.
  - intros hs. apply Permutation_rev.
  - reflexivity.
  - intros hosts. reflexivity.
  - split; reflexivity.
  - reflexivity.
  - reflexivity.
Defined.

(* ------------------------------------------------------------------ *)
(** * The order of the effects of one iteration *)

(** X18. In the iteration of the loop for a host, nothing of the retrieval
    happens before the result of the host has been printed in full. The
    report only writes to standard output. If printing it raises, the
    iteration ends with that exception and its log is that of the report
    alone. Otherwise the log is that of the report, followed, only if a
    download is wanted, by the effects of [sftp_download_files] and then by
    lines on standard output alone. *)
Theorem result_reported_before_retrieval w args st host :
  let r := host_outcome w args host in
  let report :=
    print_host_results w (result_name r) (result_code r)
      (result_paths r) (result_err r) in
  forallb is_stdout (log_of report) = true
  /\ match outcome_of report with
     | Raise e =>
         log_of (process_host w args st host) = log_of report
         /\ outcome_of (process_host w args st host) = Raise e
     | Ok _ =>
         exists tail,
           log_of (process_host w args st host)
           = (log_of report
              ++ (if wants_download args (result_code r) (result_paths r)
                  then log_of (sftp_download_files w host (result_paths r)
                                 (dest args) (timeout args)) ++ tail
                  else []))%list
           /\ forallb is_stdout tail = true
     end.
Proof.
  unfold process_host, result_name, result_code, result_paths, result_err.
  destruct st as [rs ds].
  destruct (host_outcome w args host) as [[[name code] paths] err]. cbn [fst snd].
  split; [apply (log_all_host_results is_stdout (fun _ => eq_refl))|].
  rewrite log_bind, outcome_bind.
  destruct (outcome_of (print_host_results w name code paths err)) as [[]|e].
  - destruct (wants_download args code paths).
    + rewrite log_bind.
      destruct (outcome_of (sftp_download_files w host paths (dest args) (timeout args)))
        as [dl|e].
      * rewrite log_bind.
        eexists. split; [reflexivity|].
        rewrite forallb_app.
        rewrite (log_all_downloaded is_stdout (fun _ => eq_refl) w name dl).
        destruct (outcome_of (print_downloaded w name dl)); reflexivity.
      * exists []. split; reflexivity.
    + exists []. split; reflexivity.
  - rewrite app_nil_r. split; reflexivity.
Qed.
